(** * CodeSample: player salary report

    A shallow embedding of [src/utils/data.py] (the [DataLoader] class and
    [save_as_excel]) and of [src/main.py] ([player_salary_on_play_time]),
    together with the parts of [pathlib] and [pandas] these two files call.

    - Python [str] is [string]; [str.lower] is modelled on the ASCII range:
      that is all the comparison against ['.xlsx'] can observe, and column
      labels are renamed as Python renames them when they are ASCII texts.
    - [pathlib.Path] is the POSIX flavour of CPython 3.8 - 3.13: a root and
      the list of name components.
    - A [pandas.DataFrame] is a list of column labels, the type of every
      column ([int64], [float64] or [object]) and a list of rows under the
      implicit positional index; a cell is an integer, a float or a text,
      and the missing-value marker is the float NaN, as in pandas.
      [float64] is the Standard Library's primitive binary64 float.
    - Python exceptions are values of [exn]; [try]/[except] matches on the
      class hierarchy.
    - Statements run in a state-and-exception monad whose state holds the
      heap of DataFrame objects, the loader's [datasets] dict (names to
      object references), the log, and the files handed to the writer. *)

From Stdlib Require Import ZArith Floats Ascii.
From stdpp Require Import gmap strings list.

(** ** Text *)

Module Str.

(** [s.isascii()]: every character is below 128. *)
Fixpoint isascii (s : string) : bool :=
  match s with
  | EmptyString => true
  | String c s' => (nat_of_ascii c <? 128)%nat && isascii s'
  end.

(** [str.lower] on one character of the ASCII range. *)
Definition lower_ascii (c : ascii) : ascii :=
  let n := nat_of_ascii c in
  if (65 <=? n)%nat && (n <=? 90)%nat then ascii_of_nat (n + 32) else c.

(** [s.lower()] for a text [s] of the ASCII range, where Python lowers
    the letters [A] - [Z] and nothing else. A character beyond that range is
    left as it is here, while Python lowers it by the Unicode tables: the
    properties of [lower] are stated for ASCII texts, or for the comparison
    with ['.xlsx'], which no character beyond the range can meet. *)
Fixpoint lower (s : string) : string :=
  match s with
  | EmptyString => EmptyString
  | String c s' => String (lower_ascii c) (lower s')
  end.

(** [s.replace(a, b)] for one-character [a] and [b]. *)
Fixpoint replace (a b : ascii) (s : string) : string :=
  match s with
  | EmptyString => EmptyString
  | String c s' => String (if Ascii.eqb c a then b else c) (replace a b s')
  end.

(** [s.split(sep)] for a one-character separator. *)
Fixpoint split (sep : ascii) (s : string) : list string :=
  match s with
  | EmptyString => [EmptyString]
  | String c s' =>
      if Ascii.eqb c sep then EmptyString :: split sep s'
      else match split sep s' with
           | h :: t => String c h :: t
           | [] => [String c EmptyString]
           end
  end.

(** [s.rfind(c)]: the index of the last occurrence, [None] for Python's -1. *)
Fixpoint rfind (c : ascii) (s : string) : option nat :=
  match s with
  | EmptyString => None
  | String a s' =>
      match rfind c s' with
      | Some i => Some (S i)
      | None => if Ascii.eqb a c then Some 0%nat else None
      end
  end.

(** The slices [s[i:]] and [s[:i]]. *)
Definition drop (i : nat) (s : string) : string :=
  String.substring i (String.length s - i) s.
Definition take (i : nat) (s : string) : string :=
  String.substring 0 i s.

(** [sep.join(l)]. *)
Fixpoint join (sep : string) (l : list string) : string :=
  match l with
  | [] => ""
  | [x] => x
  | x :: l' => x +:+ sep +:+ join sep l'
  end.

Definition startswith (p s : string) : bool := String.prefix p s.

End Str.

(** ** Exceptions and log records *)

Inductive exn_class :=
  | Exception
  | ValueError | EmptyDataError | ParserError | MergeError
  | OSError | FileNotFoundError | PermissionError
  | LookupError | KeyError
  | TypeError
  | ArithmeticError | ZeroDivisionError | OverflowError
  | YAMLError.

Global Instance exn_class_eq_dec : EqDecision exn_class.
Proof. solve_decision. Defined.

(** The direct base class: [pandas.errors.EmptyDataError], [ParserError] and
    [MergeError] derive from [ValueError]; [FileNotFoundError] and
    [PermissionError] from [OSError]; [KeyError] from [LookupError];
    [ZeroDivisionError] and [OverflowError] from [ArithmeticError]. *)
Definition base (c : exn_class) : option exn_class :=
  match c with
  | Exception => None
  | EmptyDataError | ParserError | MergeError => Some ValueError
  | FileNotFoundError | PermissionError => Some OSError
  | KeyError => Some LookupError
  | ZeroDivisionError | OverflowError => Some ArithmeticError
  | ValueError | OSError | LookupError | TypeError | ArithmeticError
  | YAMLError => Some Exception
  end.

(** [issubclass c d]; the hierarchy above has depth three. *)
Definition issubclass (c d : exn_class) : bool :=
  bool_decide (c = d)
  || bool_decide (base c = Some d)
  || bool_decide (base c ≫= base = Some d).

Record exn := Exn { exn_cls : exn_class; exn_msg : string }.

(** [except (c1, ..., cn)] catches [e]. *)
Definition caught_by (handlers : list exn_class) (e : exn) : bool :=
  existsb (issubclass (exn_cls e)) handlers.

Inductive log_record :=
  | LogInfo (msg : string)
  | LogError (msg : string)
  | LogException (msg : string).

(** ** pathlib, POSIX flavour *)

Module Pathlib.

Record PurePath := MkPath { root : string; tail : list string }.

Global Instance PurePath_eq_dec : EqDecision PurePath.
Proof. solve_decision. Defined.

(** [posixpath.splitroot]: one leading slash or three and more give the root
    ['/'], exactly two give ['//']. *)
Definition splitroot (p : string) : string * string :=
  if negb (Str.startswith "/" p) then ("", p)
  else if negb (Str.startswith "//" p) || Str.startswith "///" p
       then ("/", Str.drop 1 p)
       else ("//", Str.drop 2 p).

Definition is_component (x : string) : bool :=
  negb (String.eqb x "") && negb (String.eqb x ".").

(** [Path(s)]: empty components and ['.'] are dropped, ['..'] is kept. *)
Definition parse (s : string) : PurePath :=
  let '(r, rel) := splitroot s in
  MkPath r (List.filter is_component (Str.split "/" rel)).

Definition is_absolute (p : PurePath) : bool := negb (String.eqb (root p) "").

Definition name (p : PurePath) : string := List.last (tail p) "".

(** [parent]: a path without components is its own parent. *)
Definition parent (p : PurePath) : PurePath :=
  match tail p with
  | [] => p
  | _ => MkPath (root p) (List.removelast (tail p))
  end.

(** [p / key] for a text [key]: an absolute key replaces [p]. *)
Definition truediv (p : PurePath) (key : string) : PurePath :=
  let q := parse key in
  if is_absolute q then q else MkPath (root p) (tail p ++ tail q).

(** [suffix] of a file name:
    [i = name.rfind('.'); name[i:] if 0 < i < len(name) - 1 else '']. *)
Definition name_suffix (nm : string) : string :=
  match Str.rfind "." nm with
  | Some i =>
      if (0 <? i)%nat && (i <? String.length nm - 1)%nat
      then Str.drop i nm else ""
  | None => ""
  end.

Definition suffix (p : PurePath) : string := name_suffix (name p).

(** [stem]: the name without its suffix. *)
Definition name_stem (nm : string) : string :=
  Str.take (String.length nm - String.length (name_suffix nm)) nm.

Definition stem (p : PurePath) : string := name_stem (name p).

(** [with_suffix(sfx)] for a valid non-empty [sfx]: a path with an empty
    name raises [ValueError]; without an old suffix the new one is appended
    to the name, otherwise it takes the old one's place. *)
Definition with_suffix (p : PurePath) (sfx : string) : exn + PurePath :=
  let nm := name p in
  if String.eqb nm "" then inl (Exn ValueError "path has an empty name")
  else
    let old := suffix p in
    let nm' := if String.eqb old "" then nm +:+ sfx
               else Str.take (String.length nm - String.length old) nm +:+ sfx in
    inr (MkPath (root p) (List.removelast (tail p) ++ [nm'])).

(** [str(p)]. *)
Definition to_str (p : PurePath) : string :=
  match root p, tail p with
  | EmptyString, [] => "."
  | r, t => r +:+ Str.join "/" t
  end.

End Pathlib.

Import Pathlib.

(** ** pandas *)

(** The operations the program calls, as pandas 2.x documents them, on
    tables whose cells are integers, floats and texts under the default
    positional index. *)

Module Pandas.

(** A cell: a Python or NumPy scalar, an integer, a float or a text. The
    missing-value marker is the float NaN. *)
Inductive value :=
  | VInt (z : Z)
  | VFloat (f : float)
  | VStr (s : string).

Definition NaN : value := VFloat nan.

Definition isna (v : value) : bool :=
  match v with VFloat f => is_nan f | _ => false end.

Definition is_text (v : value) : bool :=
  match v with VStr _ => true | _ => false end.

Definition is_int (v : value) : bool :=
  match v with VInt _ => true | _ => false end.

Definition is_float (v : value) : bool :=
  match v with VFloat _ => true | _ => false end.

(** The type of a column. A column of type [int64] holds integers of 64
    bits, one of type [float64] holds floats, one of type [object] holds any
    Python objects: texts, floats (the missing-value marker among them) and
    Python integers of any size. *)
Inductive dtype := Int64 | Float64 | Object.

Global Instance dtype_eq_dec : EqDecision dtype.
Proof. solve_decision. Defined.

Definition numeric (t : dtype) : bool :=
  match t with Object => false | _ => true end.

Definition in_int64 (z : Z) : bool := ((-2^63 <=? z) && (z <? 2^63))%Z.

(** The cell [v] can be held by a column of type [t]. *)
Definition cell_typed (t : dtype) (v : value) : bool :=
  match t, v with
  | Int64, VInt z => in_int64 z
  | Float64, VFloat _ => true
  | Object, _ => true
  | _, _ => false
  end.

(** The conversion of an integer to [float64]: round to nearest, ties to
    even. *)
Definition Z2float (z : Z) : float :=
  SF2Prim (binary_normalize prec emax z 0 false).

Definition to_float (v : value) : option float :=
  match v with
  | VInt z => Some (Z2float z)
  | VFloat f => Some f
  | VStr _ => None
  end.

Record Series := MkSeries { dtype_of : dtype; values : list value }.

Record DataFrame := MkDF {
  columns : list string;
  dtypes : list dtype;
  rows : list (list value)
}.

Definition nrows (df : DataFrame) : nat := length (rows df).

(** Every row has one cell per column. *)
Definition frame_wf (df : DataFrame) : Prop :=
  Forall (λ r, length r = length (columns df)) (rows df).

(** Every cell is one its column's type can hold. *)
Definition frame_typed (df : DataFrame) : Prop :=
  Forall (λ r, Forall2 (λ t v, cell_typed t v = true) (dtypes df) r) (rows df).

Definition cell (r : list value) (i : nat) : value := default NaN (r !! i).

Definition dtype_at (df : DataFrame) (i : nat) : dtype :=
  default Object (dtypes df !! i).

(** The positions of the columns labelled [c], counted from [i]. *)
Fixpoint positions_from (i : nat) (c : string) (cols : list string) : list nat :=
  match cols with
  | [] => []
  | h :: cols' =>
      if bool_decide (h = c) then i :: positions_from (S i) c cols'
      else positions_from (S i) c cols'
  end.

Definition positions (c : string) (cols : list string) : list nat :=
  positions_from 0 c cols.

(** *** read_csv *)

(** What the reader finds at a path: nothing, a file without content, a
    file the tokenizer rejects, a file whose reading fails in another way,
    or the table the reader makes of the whole file: the header, the type it
    infers for every column, and the records with their fields converted to
    that type. The reader's inference is pandas' own: a column of a file
    without records has type [object], and so has a column with a field
    that is a text or an integer too large for 64 bits. *)
Inductive csv_file :=
  | NoFile
  | EmptyFile
  | Malformed
  | Unreadable (e : exn)
  | Csv (header : list string) (types : list dtype) (records : list (list value)).

(** Header names are distinct (the reader renames repeated ones) and
    every record has one field per header name. *)
Definition csv_wf (header : list string) (records : list (list value)) : Prop :=
  NoDup header ∧ Forall (λ r, length r = length header) records.

(** The entries of [r] under the kept header names. *)
Definition select_cells {A} (keep : list bool) (r : list A) : list A :=
  (filter (λ kv, Is_true kv.1) (zip keep r)).*2.

(** [pd.read_csv(path, usecols=usecols)]. The resulting columns are the
    header's names that belong to [usecols], in the header's order: the
    order of [usecols] is ignored. A name of [usecols] that the header
    lacks raises [ValueError]. *)
Definition read_csv (f : csv_file) (usecols : list string) : exn + DataFrame :=
  match f with
  | NoFile => inl (Exn FileNotFoundError "No such file or directory")
  | EmptyFile => inl (Exn EmptyDataError "No columns to parse from file")
  | Malformed => inl (Exn ParserError "Error tokenizing data")
  | Unreadable e => inl e
  | Csv header types records =>
      if forallb (λ c, bool_decide (c ∈ header)) usecols
      then
        let keep := map (λ h, bool_decide (h ∈ usecols)) header in
        inr (MkDF (filter (λ h, h ∈ usecols) header)
                  (select_cells keep types)
                  (map (select_cells keep) records))
      else inl (Exn ValueError
                  "Usecols do not match columns, columns expected but not found")
  end.

(** *** merge *)

(** Equality of two join keys: texts by content, numbers by value, and a
    missing key matches a missing key. *)
Definition key_eqb (a b : value) : bool :=
  match a, b with
  | VStr s, VStr t => String.eqb s t
  | VInt x, VInt y => Z.eqb x y
  | VFloat f, VFloat g => (f =? g)%float || (is_nan f && is_nan g)
  | VInt x, VFloat g | VFloat g, VInt x => (Z2float x =? g)%float
  | _, _ => false
  end.

(** What [lib.infer_dtype(values, skipna=False)] answers for a key
    column. A column of a numeric type is classified by its type, a column
    of type [object] by the objects it holds. [InfMixedIntegerFloat] stands
    for the answers ['mixed-integer-float'] and ['integer-na'], which the
    check below does not tell apart. *)
Inductive inferred :=
  | InfEmpty | InfInteger | InfFloating | InfMixedIntegerFloat
  | InfString | InfMixedInteger | InfMixed.

Definition infer_dtype (s : Series) : inferred :=
  match dtype_of s with
  | Int64 => InfInteger
  | Float64 => InfFloating
  | Object =>
      let v := values s in
      if bool_decide (v = []) then InfEmpty
      else if forallb is_int v then InfInteger
      else if forallb is_float v then InfFloating
      else if forallb (λ x, negb (is_text x)) v then InfMixedIntegerFloat
      else if forallb is_text v then InfString
      else if existsb is_int v then InfMixedInteger
      else InfMixed
  end.

Definition bool_like (i : inferred) : bool :=
  match i with InfInteger | InfMixedInteger | InfEmpty => true | _ => false end.

Definition string_like (i : inferred) : bool :=
  match i with InfString | InfMixed | InfEmpty => true | _ => false end.

(** The check of the key columns before the join. Nothing is checked when
    exactly one of the two is empty, when the types are equal or when both
    are numeric. A key column of type [object] against a numeric one is
    refused when one of the two looks like texts and the other does not. *)
Definition keys_compatible (lk rk : Series) : bool :=
  xorb (bool_decide (values lk = [])) (bool_decide (values rk = []))
  || bool_decide (dtype_of lk = dtype_of rk)
  || (numeric (dtype_of lk) && numeric (dtype_of rk))
  || (bool_like (infer_dtype lk) && bool_like (infer_dtype rk))
  || Bool.eqb (string_like (infer_dtype lk)) (string_like (infer_dtype rk)).

(** [Index.duplicated()]: marks every occurrence but the first. *)
Fixpoint duplicated_from (seen l : list string) : list bool :=
  match l with
  | [] => []
  | x :: l' => bool_decide (x ∈ seen) :: duplicated_from (x :: seen) l'
  end.
Definition duplicated (l : list string) : list bool := duplicated_from [] l.

(** A suffix made two labels of one side collide. *)
Definition suffix_collision (old new : list string) : bool :=
  existsb (λ p : bool * bool, p.1 && negb p.2)
          (zip (duplicated new) (duplicated old)).

(** A label present on both sides gets the side's suffix. *)
Definition rename_overlap (other : list string) (sfx : string) (c : string) : string :=
  if bool_decide (c ∈ other) then c +:+ sfx else c.

(** The right rows whose key matches [k], in the right table's order. *)
Definition matching (ri : nat) (k : value) (rrows : list (list value))
  : list (list value) :=
  List.filter (λ rrow, key_eqb k (cell rrow ri)) rrows.

(** Some left row has no matching right row. *)
Definition unmatched (li ri : nat) (lrows rrows : list (list value)) : bool :=
  existsb (λ lrow, bool_decide (matching ri (cell lrow li) rrows = [])) lrows.

(** A column of integers cannot hold the missing-value marker: when the
    join has to fill in missing values, such a column becomes [float64] and
    all its cells are converted. The other types hold the marker as they
    are. *)
Definition upcast (t : dtype) : dtype :=
  match t with Int64 => Float64 | _ => t end.

Definition upcast_cell (t : dtype) (v : value) : value :=
  match t, v with
  | Int64, VInt z => VFloat (Z2float z)
  | _, _ => v
  end.

Fixpoint upcast_row (ts : list dtype) (r : list value) : list value :=
  match r with
  | [] => []
  | v :: r' => upcast_cell (default Object (head ts)) v :: upcast_row (List.tl ts) r'
  end.

(** The rows of a left join: every left row, in order, once per matching
    right row (in the right table's order, the right cells passed through
    [cast]), or once with missing values on the right when nothing
    matches. *)
Definition left_join_rows (li ri width : nat) (cast : list value → list value)
    (lrows rrows : list (list value)) : list (list value) :=
  flat_map
    (λ lrow,
       match matching ri (cell lrow li) rrows with
       | [] => [lrow ++ replicate width NaN]
       | ms => map (λ rrow, lrow ++ cast rrow) ms
       end)
    lrows.

(** [left.merge(right, left_on=left_on, right_on=right_on, how='left')].
    The left columns keep their types; the right columns keep theirs unless
    a left row is unmatched. *)
Definition merge (left right : DataFrame) (left_on right_on : string)
  : exn + DataFrame :=
  match positions right_on (columns right), positions left_on (columns left) with
  | [], _ => inl (Exn KeyError right_on)
  | _, [] => inl (Exn KeyError left_on)
  | ri :: _, li :: _ =>
      let lk := MkSeries (dtype_at left li) (map (λ r, cell r li) (rows left)) in
      let rk := MkSeries (dtype_at right ri) (map (λ r, cell r ri) (rows right)) in
      if negb (keys_compatible lk rk)
      then inl (Exn ValueError "You are trying to merge on object and number columns")
      else
        let llabels := map (rename_overlap (columns right) "_x") (columns left) in
        let rlabels := map (rename_overlap (columns left) "_y") (columns right) in
        if suffix_collision (columns left) llabels
           || suffix_collision (columns right) rlabels
        then inl (Exn MergeError "Passing 'suffixes' which cause duplicate columns")
        else
          let fill := unmatched li ri (rows left) (rows right) in
          inr (MkDF (llabels ++ rlabels)
                    (dtypes left
                     ++ (if fill then map upcast (dtypes right) else dtypes right))
                    (left_join_rows li ri (length (columns right))
                       (if fill then upcast_row (dtypes right) else id)
                       (rows left) (rows right)))
  end.

(** *** Column selection, arithmetic and assignment *)

(** What [df[c]] selects: no column ([KeyError]), one column (a Series)
    or, for a label carried by several columns, a frame. *)
Inductive selection :=
  | SelSeries (s : Series)
  | SelFrame (idx : list nat).

Definition getitem (df : DataFrame) (c : string) : exn + selection :=
  match positions c (columns df) with
  | [] => inl (Exn KeyError c)
  | [i] => inr (SelSeries (MkSeries (dtype_at df i) (map (λ r, cell r i) (rows df))))
  | idx => inr (SelFrame idx)
  end.

(** Python's [a / b] on two integers: the quotient of the two numbers
    rounded once to the nearest float, ties to even. The quotient is first
    cut to an integer of at least 55 bits and one more bit that tells
    whether anything was cut off, which rounds as the quotient itself. *)
Definition int_truediv (a b : Z) : float :=
  let neg := xorb (a <? 0)%Z (b <? 0)%Z in
  let k := Z.max 0 (56 + Z.log2 (Z.abs b) - Z.log2 (Z.abs a)) in
  let n := Z.shiftl (Z.abs a) k in
  let q := (n / Z.abs b)%Z in
  let sticky := if (n mod Z.abs b =? 0)%Z then 0%Z else 1%Z in
  let m := (2 * q + sticky)%Z in
  SF2Prim (binary_normalize prec emax (if neg then - m else m) (- k - 1) neg).

(** A number as a Python float: an integer too large for a float is an
    [OverflowError]; a text is no number. *)
Definition py_float (v : value) : option (exn + float) :=
  match v with
  | VStr _ => None
  | VFloat f => Some (inr f)
  | VInt z =>
      if is_infinity (Z2float z)
      then Some (inl (Exn OverflowError "int too large to convert to float"))
      else Some (inr (Z2float z))
  end.

(** Python's [a / b] on two objects: a text operand is a [TypeError], a
    zero divisor a [ZeroDivisionError]. *)
Definition py_truediv (a b : value) : exn + value :=
  match a, b with
  | VInt x, VInt y =>
      if (y =? 0)%Z then inl (Exn ZeroDivisionError "division by zero")
      else if is_infinity (int_truediv x y)
      then inl (Exn OverflowError "integer division result too large for a float")
      else inr (VFloat (int_truediv x y))
  | _, _ =>
      match py_float a, py_float b with
      | Some (inl e), Some _ => inl e
      | Some (inr _), Some (inl e) => inl e
      | Some (inr x), Some (inr y) =>
          if is_zero y then inl (Exn ZeroDivisionError "float division by zero")
          else inr (VFloat (x / y))
      | _, _ => inl (Exn TypeError "unsupported operand type(s) for /")
      end
  end.

(** Element-wise evaluation, the first failing element decides. *)
Fixpoint object_truediv (a b : list value) : exn + list value :=
  match a, b with
  | x :: a', y :: b' =>
      match py_truediv x y with
      | inl e => inl e
      | inr v => match object_truediv a' b' with
                 | inl e => inl e
                 | inr s => inr (v :: s)
                 end
      end
  | _, _ => inr []
  end.

(** The same on the elements that are not missing on either side; the
    others give a missing value. *)
Fixpoint masked_truediv (a b : list value) : exn + list value :=
  match a, b with
  | x :: a', y :: b' =>
      if isna x || isna y
      then match masked_truediv a' b' with
           | inl e => inl e
           | inr s => inr (NaN :: s)
           end
      else match py_truediv x y with
           | inl e => inl e
           | inr v => match masked_truediv a' b' with
                      | inl e => inl e
                      | inr s => inr (v :: s)
                      end
           end
  | _, _ => inr []
  end.

(** [float64] division of two numeric cells. *)
Definition float_truediv (a b : value) : value :=
  match to_float a, to_float b with
  | Some x, Some y => VFloat (x / y)
  | _, _ => NaN
  end.

(** [a / b] on two Series under the same index. Two columns of numeric
    type divide as [float64], where a zero divisor gives an infinity or NaN
    rather than an error. When one of them has type [object], the quotient
    is evaluated element by element on Python objects; after a [TypeError]
    the evaluation is repeated on the elements that are not missing. *)
Definition series_truediv (a b : Series) : exn + Series :=
  if numeric (dtype_of a) && numeric (dtype_of b)
  then inr (MkSeries Float64 (zip_with float_truediv (values a) (values b)))
  else
    match object_truediv (values a) (values b) with
    | inr q => inr (MkSeries Object q)
    | inl e =>
        if caught_by [TypeError] e
        then match masked_truediv (values a) (values b) with
             | inr q => inr (MkSeries Object q)
             | inl e' => inl e'
             end
        else inl e
    end.

(** The types of a row of columns with the entry at [i] replaced. *)
Fixpoint set_where (c : string) (t : dtype) (cols : list string) (ts : list dtype)
  : list dtype :=
  match cols with
  | [] => []
  | h :: cols' =>
      (if bool_decide (h = c) then t else default Object (head ts))
      :: set_where c t cols' (List.tl ts)
  end.

(** [df[c] = s]: an existing label has its cells replaced in place, a new
    label is appended as the last column. *)
Definition setitem (df : DataFrame) (c : string) (s : Series) : DataFrame :=
  if bool_decide (c ∈ columns df)
  then MkDF (columns df)
            (set_where c (dtype_of s) (columns df) (dtypes df))
            (zip_with
               (λ r v, zip_with (λ h x, if bool_decide (h = c) then v else x)
                                (columns df) r)
               (rows df) (values s))
  else MkDF (columns df ++ [c]) (dtypes df ++ [dtype_of s])
            (zip_with (λ r v, r ++ [v]) (rows df) (values s)).

(** [df[[c1, ..., cn]]]: a new frame with the requested columns in the
    requested order; an absent label raises [KeyError]. *)
Definition getitem_list (df : DataFrame) (cs : list string) : exn + DataFrame :=
  match List.find (λ c, negb (bool_decide (c ∈ columns df))) cs with
  | Some c => inl (Exn KeyError c)
  | None =>
      let idx := flat_map (λ c, positions c (columns df)) cs in
      inr (MkDF (map (λ i, default "" (columns df !! i)) idx)
                (map (dtype_at df) idx)
                (map (λ r, map (cell r) idx) (rows df)))
  end.

End Pandas.

Import Pandas.

(** ** The program state and its monad *)

(** References to DataFrame objects. *)
Abbreviation loc := positive.

(** One entry of the YAML configuration; a key the entry lacks is [None]. *)
Record dataset_config := MkCfg {
  cfg_path : option string;
  cfg_columns : option (list string)
}.

(** Values of keyword arguments. *)
Inductive pyval :=
  | PNone
  | PBool (b : bool)
  | PInt (z : Z)
  | PStr (s : string).

(** The world outside the program: the working directory, what
    [yaml.safe_load] finds at a configuration path (the mapping in document
    order), what the CSV reader finds at a path, and whether [mkdir] and the
    spreadsheet writer fail. *)
Record Env := MkEnv {
  cwd : PurePath;
  yaml_at : string → exn + list (string * dataset_config);
  csv_at : PurePath → csv_file;
  mkdir_fails : PurePath → option exn;
  to_excel_fails : PurePath → DataFrame → option exn
}.

(** The heap of DataFrame objects, the attributes [config] and [datasets] of
    the [DataLoader] instance, the log, and the calls that reached the file
    system and returned, oldest first: [dirs_made] holds the directory of
    every [mkdir(parents=True, exist_ok=True)] that returned (the call
    creates the directory and its missing ancestors, and nothing when the
    directory exists), [written] the path, table and options of every
    [to_excel] that returned. A call that raises is not recorded, whatever
    it left on the disk. *)
Record state := MkState {
  heap : gmap loc DataFrame;
  config : list (string * dataset_config);
  datasets : gmap string loc;
  log : list log_record;
  dirs_made : list PurePath;
  written : list (PurePath * DataFrame * gmap string pyval)
}.

Definition init_state : state := MkState ∅ [] ∅ [] [] [].

Inductive outcome (A : Type) :=
  | Return (a : A)
  | Raise (e : exn).
Global Arguments Return {A} a.
Global Arguments Raise {A} e.

Definition M (A : Type) : Type := state → outcome A * state.

Global Instance M_ret : MRet M := λ A a st, (Return a, st).
Global Instance M_bind : MBind M := λ A B f m st,
  match m st with
  | (Return a, st') => f a st'
  | (Raise e, st') => (Raise e, st')
  end.

Definition raise {A} (e : exn) : M A := λ st, (Raise e, st).

Definition lift {A} (r : exn + A) : M A :=
  match r with inl e => raise e | inr a => mret a end.

Definition gets {A} (f : state → A) : M A := λ st, (Return (f st), st).

Definition modify (f : state → state) : M unit := λ st, (Return (), f st).

(** [try: body except (classes): handler ...]: the first clause whose classes
    match handles the exception; the state reached by the body is kept. *)
Definition try_except {A} (body : M A)
    (clauses : list (list exn_class * (exn → M A))) : M A := λ st,
  match body st with
  | (Raise e, st') =>
      match List.find (λ cl, caught_by cl.1 e) clauses with
      | Some cl => cl.2 e st'
      | None => (Raise e, st')
      end
  | r => r
  end.

(** [for x in l: body(x)]. *)
Fixpoint for_each {A} (l : list A) (body : A → M unit) : M unit :=
  match l with
  | [] => mret ()
  | x :: l' => body x ;; for_each l' body
  end.

Definition logger (r : log_record) : M unit :=
  modify (λ st, MkState (heap st) (config st) (datasets st) (log st ++ [r])
                        (dirs_made st) (written st)).

Definition set_heap (h : gmap loc DataFrame) : M unit :=
  modify (λ st, MkState h (config st) (datasets st) (log st)
                        (dirs_made st) (written st)).

(** A new object gets a reference no live object has. *)
Definition alloc (df : DataFrame) : M loc :=
  h ← gets heap;
  let l := fresh (dom h) in
  set_heap (<[l := df]> h) ;; mret l.

Definition deref (l : loc) : M DataFrame :=
  h ← gets heap;
  match h !! l with
  | Some df => mret df
  | None => raise (Exn Exception "reference to no object")
  end.

(** In-place update of the object at [l]. *)
Definition update (l : loc) (f : DataFrame → DataFrame) : M unit :=
  df ← deref l;
  h ← gets heap;
  set_heap (<[l := f df]> h).

(** ** utils/data.py *)

Section Program.

Variable E : Env.

(** [DataLoader.__init__]. *)
Definition DataLoader_init (config_file : string) : M unit :=
  modify (λ st, MkState (heap st) (config st) ∅ (log st)
                        (dirs_made st) (written st)) ;;
  cfg ← lift (yaml_at E config_file);
  modify (λ st, MkState (heap st) cfg (datasets st) (log st)
                        (dirs_made st) (written st)) ;;
  logger (LogInfo ("DataLoader initialized with config file: " +:+ config_file)).

(** [DataLoader.__get_dataset_path]. *)
Definition get_dataset_path (path : string) : PurePath :=
  if is_absolute (parse path) then parse path
  else truediv (truediv (parent (cwd E)) "Datasets") path.

(** [d[key]] on a dict held in document order. *)
Definition dict_getitem {A} (d : list (string * A)) (key : string) : exn + A :=
  match List.find (λ kv, String.eqb kv.1 key) d with
  | Some kv => inr kv.2
  | None => inl (Exn KeyError key)
  end.

Definition entry_getitem {A} (field : option A) (key : string) : exn + A :=
  match field with
  | Some a => inr a
  | None => inl (Exn KeyError key)
  end.

(** The body of the loop of [load_data]. *)
Definition load_dataset (dataset : string) : M unit :=
  cfg ← gets config;
  entry ← lift (dict_getitem cfg dataset);
  path ← lift (entry_getitem (cfg_path entry) "path");
  let target_path := get_dataset_path path in
  entry' ← lift (dict_getitem cfg dataset);
  usecols ← lift (entry_getitem (cfg_columns entry') "columns");
  data ← lift (read_csv (csv_at E target_path) usecols);
  l ← alloc data;
  modify (λ st, MkState (heap st) (config st) (<[dataset := l]> (datasets st))
                        (log st) (dirs_made st) (written st)).

(** [DataLoader.load_data]: the [try] encloses the whole loop. *)
Definition load_data : M unit :=
  try_except
    (cfg ← gets config;
     for_each cfg.*1 load_dataset)
    [ ([EmptyDataError],
       λ _, logger (LogException "No data found in the file."));
      ([FileNotFoundError; ParserError; KeyError],
       λ e, logger (LogException
                      ("An error occurred while loading the data: " +:+ exn_msg e))) ].

(** [data.to_excel(file_path, engine='openpyxl', **kwargs)]: a caller's
    own [engine] keyword collides with the explicit one, before the writer
    is entered. Whether the writer fails is the world's; a call that returns
    is recorded with its arguments, one that raises is not (the file it may
    have left at the path, an empty workbook for instance, is not part of
    the state). *)
Definition to_excel (data : loc) (file_path : PurePath)
    (kwargs : gmap string pyval) : M unit :=
  df ← deref data;
  if bool_decide (is_Some (kwargs !! "engine"))
  then raise (Exn TypeError "got multiple values for keyword argument 'engine'")
  else
    match to_excel_fails E file_path df with
    | Some e => raise e
    | None =>
        modify (λ st, MkState (heap st) (config st) (datasets st) (log st)
                              (dirs_made st)
                              (written st ++ [(file_path, df, kwargs)]))
    end.

(** [p.mkdir(parents=True, exist_ok=True)]: one call, recorded with [p]
    when it returns. *)
Definition mkdir (p : PurePath) : M unit :=
  match mkdir_fails E p with
  | Some e => raise e
  | None =>
      modify (λ st, MkState (heap st) (config st) (datasets st) (log st)
                            (dirs_made st ++ [p]) (written st))
  end.

(** Lines 98 - 100 of [save_as_excel]: the path the writer is given. *)
Definition normalize_path (file_path : string) : exn + PurePath :=
  let p := parse file_path in
  if negb (String.eqb (Str.lower (suffix p)) ".xlsx")
  then with_suffix p ".xlsx"
  else inr p.

(** [kwargs['index'] = kwargs.get('index', False)]. *)
Definition with_index_default (kwargs : gmap string pyval) : gmap string pyval :=
  <["index" := default (PBool false) (kwargs !! "index")]> kwargs.

(** The [try] block of [save_as_excel], lines 98 - 107. *)
Definition save_as_excel_try (data : loc) (file_path : string)
    (kwargs : gmap string pyval) : M unit :=
  file_path ← lift (normalize_path file_path);
  mkdir (parent file_path) ;;
  let kwargs := with_index_default kwargs in
  to_excel data file_path kwargs ;;
  logger (LogInfo ("Data saved to " +:+ to_str file_path)).

(** [save_as_excel]. *)
Definition save_as_excel (data : loc) (file_path : string)
    (kwargs : gmap string pyval) : M unit :=
  try_except
    (save_as_excel_try data file_path kwargs)
    [ ([ValueError; FileNotFoundError; PermissionError],
       λ e, logger (LogError ("Failed to save data to Excel: " +:+ exn_msg e))) ].

(** ** main.py *)

Definition dict_lookup (name : string) : M loc :=
  d ← gets datasets;
  match d !! name with
  | Some l => mret l
  | None => raise (Exn KeyError name)
  end.

(** Line 43: lower case, spaces to underscores. *)
Definition normalize_label (c : string) : string :=
  Str.replace " " "_" (Str.lower c).

Definition report_columns : list string :=
  ["name"; "team"; "age"; "nation"; "position"; "minutes"; "salary_per_minute"].

(** Line 40 on the frame itself: both operands are selected, divided, and
    the quotient is assigned. A label carried by several columns selects a
    frame, which cannot be assigned to one column. *)
Definition add_salary_per_minute (df : DataFrame) : exn + DataFrame :=
  match getitem df "Annual" with
  | inl e => inl e
  | inr a =>
      match getitem df "minutes" with
      | inl e => inl e
      | inr m =>
          match a, m with
          | SelSeries x, SelSeries y =>
              match series_truediv x y with
              | inl e => inl e
              | inr q => inr (setitem df "salary_per_minute" q)
              end
          | _, _ =>
              inl (Exn ValueError
                     "Cannot set a DataFrame with multiple columns to the single column")
          end
      end
  end.

(** Lines 31 - 46: the report is built from the loaded tables. [merge] and
    the projection create new objects; lines 40 and 43 update the merged
    object in place. *)
Definition build_report : M unit :=
  player_stats ← dict_lookup "player_stats";
  player_salary ← dict_lookup "player_salaries";
  left ← deref player_stats;
  right ← deref player_salary;
  merged ← lift (merge left right "name" "Player");
  df ← alloc merged;
  cur ← deref df;
  cur' ← lift (add_salary_per_minute cur);
  update df (λ _, cur') ;;
  update df (λ d, MkDF (map normalize_label (columns d)) (dtypes d) (rows d)) ;;
  cur ← deref df;
  report ← lift (getitem_list cur report_columns);
  df ← alloc report;
  save_as_excel df "player_salary_report.xlsx" ∅.

Definition player_salary_on_play_time (config_file : string) : M unit :=
  logger (LogInfo "Generating player salary report based on play minutes...") ;;
  DataLoader_init config_file ;;
  load_data ;;
  build_report.

End Program.

(** ** utils/data.py: the CSV snapshot *)

(** The tables handed to [to_csv], with their paths, oldest first. *)
Abbreviation csv_files := (list (string * DataFrame)).

(** [DataLoader.save_dataset_csv]. Whether [to_csv(save_path, index=False)]
    fails is given by [to_csv_fails]; the files written so far are passed in
    and returned. No exception is handled here. *)
Definition save_dataset_csv (to_csv_fails : string → DataFrame → option exn)
    (dataset_name save_path : string) (files : csv_files) : M csv_files :=
  d ← gets datasets;
  match d !! dataset_name with
  | Some l =>
      df ← deref l;
      match to_csv_fails save_path df with
      | Some e => raise e
      | None =>
          logger (LogInfo ("Dataset '" +:+ dataset_name +:+ "' saved to "
                           +:+ save_path)) ;;
          mret (files ++ [(save_path, df)])
      end
  | None =>
      logger (LogError ("Dataset '" +:+ dataset_name +:+ "' not found.")) ;;
      mret files
  end.

(** * Vocabulary of the properties *)

(** ** State changes *)

(** The state after [p] has been ensured as a directory, after [r] has
    been logged, and after the file [w] has been written. *)
Definition add_dir (p : PurePath) (st : state) : state :=
  MkState (heap st) (config st) (datasets st) (log st)
          (dirs_made st ++ [p]) (written st).

Definition add_log (r : log_record) (st : state) : state :=
  MkState (heap st) (config st) (datasets st) (log st ++ [r])
          (dirs_made st) (written st).

Definition add_written (w : PurePath * DataFrame * gmap string pyval)
    (st : state) : state :=
  MkState (heap st) (config st) (datasets st) (log st)
          (dirs_made st) (written st ++ [w]).

(** The state after [data] has been stored under [dataset]. *)
Definition store_dataset (dataset : string) (data : DataFrame) (st : state) : state :=
  let l := fresh (dom (heap st)) in
  MkState (<[l := data]> (heap st)) (config st) (<[dataset := l]> (datasets st))
          (log st) (dirs_made st) (written st).

(** The exceptions the two [except] clauses of [load_data] handle. *)
Definition load_caught (e : exn) : bool :=
  caught_by [EmptyDataError] e
  || caught_by [FileNotFoundError; ParserError; KeyError] e.

(** The record the handler writes. *)
Definition load_error_record (e : exn) : log_record :=
  if caught_by [EmptyDataError] e
  then LogException "No data found in the file."
  else LogException ("An error occurred while loading the data: " +:+ exn_msg e).

(** The path the specification describes for a file without the
    spreadsheet extension: same directory, same stem, extension
    ['.xlsx']. *)
Definition replace_extension (p : PurePath) : PurePath :=
  MkPath (root p) (List.removelast (tail p) ++ [stem p +:+ ".xlsx"]).

(** The cells of the key column [c]: those of the first column with that
    label, as [merge] selects it. *)
Definition key_column (df : DataFrame) (c : string) : list value :=
  match positions c (columns df) with
  | i :: _ => map (λ r, cell r i) (rows df)
  | [] => []
  end.

(** How many keys of [keys] match [k]. *)
Definition match_count (k : value) (keys : list value) : nat :=
  length (List.filter (key_eqb k) keys).

(** The cell of row [r] under the first column labelled [c]. *)
Definition cell_at (df : DataFrame) (r : list value) (c : string) : option value :=
  match positions c (columns df) with
  | i :: _ => Some (cell r i)
  | [] => None
  end.

(** From a state in [P], the computation ends in [Q] when it returns and
    in [X] when it raises. *)
Definition hoare {A} (P : state → Prop) (m : M A)
    (Q : A → state → Prop) (X : state → Prop) : Prop :=
  ∀ st, P st →
    match m st with
    | (Return a, st') => Q a st'
    | (Raise _, st') => X st'
    end.

(** A computation that leaves the state alone keeps any invariant. *)
Definition stateless {A} (m : M A) : Prop := ∀ st, (m st).2 = st.

(** The tables of the heap [h0] are still there, and the dataset
    collection is still [d0]. *)
Definition tables_kept (h0 : gmap loc DataFrame) (d0 : gmap string loc)
    (st : state) : Prop :=
  h0 ⊆ heap st ∧ datasets st = d0.

(** Every name of the collection refers to a table on the heap, and no
    two names refer to the same table. *)
Definition collection_sound (st : state) : Prop :=
  (∀ n l, datasets st !! n = Some l → is_Some (heap st !! l))
  ∧ (∀ n m l, datasets st !! n = Some l → datasets st !! m = Some l → n = m).

(** Lines 35 - 44 of [player_salary_on_play_time] on the two tables
    themselves: the join, the derived column, the renaming, the projection. *)
Definition report_table (left right : DataFrame) : exn + DataFrame :=
  match merge left right "name" "Player" with
  | inl e => inl e
  | inr merged =>
      match add_salary_per_minute merged with
      | inl e => inl e
      | inr df =>
          getitem_list (MkDF (map normalize_label (columns df)) (dtypes df) (rows df))
                       report_columns
      end
  end.

(** No letter [A] - [Z] and no space. *)
Definition normalized_char (c : ascii) : bool :=
  let n := nat_of_ascii c in
  negb ((65 <=? n)%nat && (n <=? 90)%nat) && negb (Ascii.eqb c " ").

Fixpoint normalized (s : string) : bool :=
  match s with
  | EmptyString => true
  | String c s' => normalized_char c && normalized s'
  end.

(** The state in which [load_data] starts: the first record logged, a new
    loader with the configuration [cfg] and an empty collection, its
    initialization logged. *)
Definition loader_ready (cfg : list (string * dataset_config))
    (config_file : string) (st0 : state) : state :=
  MkState (heap st0) cfg ∅
          (log st0
           ++ [LogInfo "Generating player salary report based on play minutes..."]
           ++ [LogInfo ("DataLoader initialized with config file: " +:+ config_file)])
          (dirs_made st0) (written st0).

Section Vocabulary.

Variable E : Env.

(** What one pass of the loop reads for [dataset] under the configuration
    [cfg]: the two dict accesses and the call of the reader. *)
Definition load_result (cfg : list (string * dataset_config)) (dataset : string)
  : exn + DataFrame :=
  match dict_getitem cfg dataset with
  | inl e => inl e
  | inr entry =>
      match entry_getitem (cfg_path entry) "path" with
      | inl e => inl e
      | inr path =>
          match entry_getitem (cfg_columns entry) "columns" with
          | inl e => inl e
          | inr usecols => read_csv (csv_at E (get_dataset_path E path)) usecols
          end
      end
  end.

(** [dataset] is in the collection and refers to the table read for it. *)
Definition loaded (cfg : list (string * dataset_config)) (dataset : string)
    (st : state) : Prop :=
  ∃ l data, datasets st !! dataset = Some l ∧ heap st !! l = Some data
            ∧ load_result cfg dataset = inr data.

(** The entry reads a CSV file with the given header and records,
    restricted to [cols]. *)
Definition reads_csv (entry : dataset_config) (cols header : list string)
    (recs : list (list value)) : Prop :=
  ∃ path types, cfg_path entry = Some path ∧ cfg_columns entry = Some cols
          ∧ csv_at E (get_dataset_path E path) = Csv header types recs.

(** Lines 24 - 28 of [player_salary_on_play_time]: everything before the
    report is built. *)
Definition load_phase (config_file : string) : M unit :=
  logger (LogInfo "Generating player salary report based on play minutes...") ;;
  DataLoader_init E config_file ;;
  load_data E.

End Vocabulary.

(** * Worlds, tables and configurations used as examples *)

(** A state with one table on the heap, and worlds in which the writer
    succeeds or is denied. *)
Definition one_table : DataFrame := MkDF ["name"] [Object] [[VStr "Alice"]].

Definition one_table_state : state :=
  MkState {[ 1%positive := one_table ]} [] ∅ [] [] [].

Definition quiet_env : Env :=
  MkEnv (parse "/home/u/proj") (λ _, inr []) (λ _, NoFile) (λ _, None) (λ _ _, None).

Definition denied_env : Env :=
  MkEnv (parse "/home/u/proj") (λ _, inr []) (λ _, NoFile) (λ _, None)
        (λ _ _, Some (Exn PermissionError "Permission denied")).

(** One player with two salary records. *)
Definition alice_stats : DataFrame :=
  MkDF ["name"; "team"; "age"; "nation"; "position"; "minutes"]
       [Object; Object; Int64; Object; Object; Int64]
       [[VStr "Alice"; VStr "TeamA"; VInt 22; VStr "USA"; VStr "FW"; VInt 900]].

Definition two_salaries : DataFrame :=
  MkDF ["Player"; "Annual"] [Object; Int64]
       [[VStr "Alice"; VInt 900000]; [VStr "Alice"; VInt 450000]].

Definition two_salaries_merged : DataFrame :=
  MkDF ["name"; "team"; "age"; "nation"; "position"; "minutes"; "Player"; "Annual"]
       [Object; Object; Int64; Object; Object; Int64; Object; Int64]
       [[VStr "Alice"; VStr "TeamA"; VInt 22; VStr "USA"; VStr "FW"; VInt 900;
         VStr "Alice"; VInt 900000];
        [VStr "Alice"; VStr "TeamA"; VInt 22; VStr "USA"; VStr "FW"; VInt 900;
         VStr "Alice"; VInt 450000]].

(** A merged table with a regular row, a row without minutes played, and
    a row without a salary, which made [Annual] a column of floats. *)
Definition merged_sample : DataFrame :=
  MkDF ["name"; "minutes"; "Player"; "Annual"]
       [Object; Int64; Object; Float64]
       [[VStr "Alice"; VInt 900; VStr "Alice"; VFloat 900000];
        [VStr "Bob"; VInt 0; VStr "Bob"; VFloat 500000];
        [VStr "Carol"; VInt 300; NaN; NaN]].

Definition merged_sample_out : DataFrame :=
  MkDF ["name"; "minutes"; "Player"; "Annual"; "salary_per_minute"]
       [Object; Int64; Object; Float64; Float64]
       [[VStr "Alice"; VInt 900; VStr "Alice"; VFloat 900000; VFloat 1000];
        [VStr "Bob"; VInt 0; VStr "Bob"; VFloat 500000; VFloat infinity];
        [VStr "Carol"; VInt 300; NaN; NaN; VFloat nan]].

(** The configuration: two datasets at relative paths. *)
Definition scenario_config : list (string * dataset_config) :=
  [ ("player_stats",
     MkCfg (Some "stats.csv")
           (Some ["name"; "team"; "age"; "nation"; "position"; "minutes"]));
    ("player_salaries",
     MkCfg (Some "sal.csv") (Some ["Player"; "Annual"])) ].

Definition stats_csv : csv_file :=
  Csv ["name"; "team"; "age"; "nation"; "position"; "minutes"]
      [Object; Object; Int64; Object; Object; Int64]
      [[VStr "Alice"; VStr "TeamA"; VInt 22; VStr "USA"; VStr "FW"; VInt 900]].

Definition sal_csv : csv_file :=
  Csv ["Player"; "Annual"] [Object; Int64] [[VStr "Alice"; VInt 900000]].

(** The program runs in [/home/u/proj], so the files are looked up in
    [/home/u/Datasets]; creating directories and writing succeed. *)
Definition scenario_env : Env :=
  MkEnv (parse "/home/u/proj")
        (λ _, inr scenario_config)
        (λ p, if bool_decide (p = parse "/home/u/Datasets/stats.csv") then stats_csv
              else if bool_decide (p = parse "/home/u/Datasets/sal.csv") then sal_csv
              else NoFile)
        (λ _, None)
        (λ _ _, None).

Definition scenario_report : DataFrame :=
  MkDF ["name"; "team"; "age"; "nation"; "position"; "minutes"; "salary_per_minute"]
       [Object; Object; Int64; Object; Object; Int64; Float64]
       [[VStr "Alice"; VStr "TeamA"; VInt 22; VStr "USA"; VStr "FW"; VInt 900;
         VFloat 1000]].

(** The state of a loader that has read the configuration [cfg]. *)
Definition configured (cfg : list (string * dataset_config)) : state :=
  MkState ∅ cfg ∅ [] [] [].

(** The world of the scenario without [stats.csv]. *)
Definition missing_stats_env : Env :=
  MkEnv (parse "/home/u/proj")
        (λ _, inr scenario_config)
        (λ p, if bool_decide (p = parse "/home/u/Datasets/sal.csv") then sal_csv
              else NoFile)
        (λ _, None)
        (λ _ _, None).

(** The same files with [player_salaries] configured first. *)
Definition salaries_first_config : list (string * dataset_config) :=
  [ ("player_salaries",
     MkCfg (Some "sal.csv") (Some ["Player"; "Annual"]));
    ("player_stats",
     MkCfg (Some "stats.csv")
           (Some ["name"; "team"; "age"; "nation"; "position"; "minutes"])) ].

(** A file that lacks a configured column: the reader's [ValueError] is
    none of the handled classes and leaves [load_data]. *)
Definition short_stats_env : Env :=
  MkEnv (parse "/home/u/proj")
        (λ _, inr scenario_config)
        (λ p, if bool_decide (p = parse "/home/u/Datasets/stats.csv")
              then Csv ["name"; "team"; "age"; "nation"; "position"]
                       [Object; Object; Int64; Object; Object]
                       [[VStr "Alice"; VStr "TeamA"; VInt 22; VStr "USA"; VStr "FW"]]
              else if bool_decide (p = parse "/home/u/Datasets/sal.csv") then sal_csv
              else NoFile)
        (λ _, None)
        (λ _ _, None).

(** The salaries configured as [Annual, Player], against the file's
    header [Player, Annual]. *)
Definition swapped_config : list (string * dataset_config) :=
  [ ("player_salaries",
     MkCfg (Some "sal.csv") (Some ["Annual"; "Player"])) ].

Definition one_dataset_state : state :=
  MkState {[ 1%positive := one_table ]} [] {[ "players" := 1%positive ]} [] [] [].

(** A world whose configuration file does not exist. *)
Definition no_config_env : Env :=
  MkEnv (parse "/home/u/proj")
        (λ _, inl (Exn FileNotFoundError "No such file or directory"))
        (λ _, NoFile) (λ _, None) (λ _ _, None).

(** A state that holds the two tables of the scenario. *)
Definition scenario_loaded : state :=
  MkState {[ 1%positive := alice_stats;
             2%positive := MkDF ["Player"; "Annual"] [Object; Int64]
                                [[VStr "Alice"; VInt 900000]] ]}
          scenario_config
          {[ "player_stats" := 1%positive; "player_salaries" := 2%positive ]}
          [] [] [].

(** Two players, one of them without a salary record. *)
Definition stats_two_players : DataFrame :=
  MkDF ["name"; "team"; "age"; "nation"; "position"; "minutes"]
       [Object; Object; Int64; Object; Object; Int64]
       [[VStr "Alice"; VStr "TeamA"; VInt 22; VStr "USA"; VStr "FW"; VInt 900];
        [VStr "Carol"; VStr "TeamB"; VInt 30; VStr "FRA"; VStr "GK"; VInt 300]].

Definition salaries_alice : DataFrame :=
  MkDF ["Player"; "Annual"] [Object; Int64] [[VStr "Alice"; VInt 900000]].

Definition two_players_merged : DataFrame :=
  MkDF ["name"; "team"; "age"; "nation"; "position"; "minutes"; "Player"; "Annual"]
       [Object; Object; Int64; Object; Object; Int64; Object; Float64]
       [[VStr "Alice"; VStr "TeamA"; VInt 22; VStr "USA"; VStr "FW"; VInt 900;
         VStr "Alice"; VFloat 900000];
        [VStr "Carol"; VStr "TeamB"; VInt 30; VStr "FRA"; VStr "GK"; VInt 300;
         NaN; NaN]].



(** A salaries file with its header and no record, and a player who has
    played no minute. *)
Definition no_salaries : DataFrame := MkDF ["Player"; "Annual"] [Object; Object] [].

Definition bob_stats : DataFrame :=
  MkDF ["name"; "team"; "age"; "nation"; "position"; "minutes"]
       [Object; Object; Int64; Object; Object; Int64]
       [[VStr "Bob"; VStr "TeamB"; VInt 25; VStr "USA"; VStr "MF"; VInt 0]].

Definition bob_merged : DataFrame :=
  MkDF ["name"; "team"; "age"; "nation"; "position"; "minutes"; "Player"; "Annual"]
       [Object; Object; Int64; Object; Object; Int64; Object; Object]
       [[VStr "Bob"; VStr "TeamB"; VInt 25; VStr "USA"; VStr "MF"; VInt 0;
         NaN; NaN]].

Definition no_salaries_env : Env :=
  MkEnv (parse "/home/u/proj")
        (λ _, inr scenario_config)
        (λ p, if bool_decide (p = parse "/home/u/Datasets/stats.csv")
              then Csv ["name"; "team"; "age"; "nation"; "position"; "minutes"]
                       [Object; Object; Int64; Object; Object; Int64]
                       [[VStr "Bob"; VStr "TeamB"; VInt 25; VStr "USA"; VStr "MF";
                         VInt 0]]
              else if bool_decide (p = parse "/home/u/Datasets/sal.csv")
              then Csv ["Player"; "Annual"] [Object; Object] []
              else NoFile)
        (λ _, None)
        (λ _ _, None).

(** * Text and path lemmas *)

Section StrFacts.

Lemma str_drop_0 s : Str.drop 0 s = s.
Proof.
  unfold Str.drop. rewrite Nat.sub_0_r.
  induction s as [|c s IH]; simpl; [done | by rewrite IH].
Qed.

Lemma str_drop_S i c s : Str.drop (S i) (String c s) = Str.drop i s.
Proof. reflexivity. Qed.

Lemma str_take_0 s : Str.take 0 s = "".
Proof. by destruct s. Qed.

Lemma str_take_S i c s : Str.take (S i) (String c s) = String c (Str.take i s).
Proof. reflexivity. Qed.

Lemma str_take_drop i s : Str.take i s +:+ Str.drop i s = s.
Proof.
  revert i. induction s as [|c s IH]; intros [|i]; try reflexivity.
  - rewrite str_take_0, str_drop_0. reflexivity.
  - rewrite str_take_S, str_drop_S.
    change (String c (Str.take i s +:+ Str.drop i s) = String c s).
    by rewrite IH.
Qed.

Lemma str_length_app a b : String.length (a +:+ b) = String.length a + String.length b.
Proof.
  induction a as [|c a IH]; [done|].
  change (S (String.length (a +:+ b)) = S (String.length a + String.length b)).
  by rewrite IH.
Qed.

Lemma str_length_drop i s : String.length (Str.drop i s) = String.length s - i.
Proof.
  revert i. induction s as [|c s IH]; intros [|i]; try reflexivity.
  - by rewrite str_drop_0.
  - rewrite str_drop_S, IH. reflexivity.
Qed.

Lemma str_length_take i s : i ≤ String.length s → String.length (Str.take i s) = i.
Proof.
  revert i. induction s as [|c s IH]; intros [|i] Hi.
  - reflexivity.
  - simpl in Hi. lia.
  - by rewrite str_take_0.
  - rewrite str_take_S.
    change (S (String.length (Str.take i s)) = S i).
    rewrite IH; [done | simpl in Hi; lia].
Qed.

Lemma str_take_app a b : Str.take (String.length a) (a +:+ b) = a.
Proof.
  induction a as [|c a IH].
  - apply str_take_0.
  - change (String c (Str.take (String.length a) (a +:+ b)) = String c a).
    by rewrite IH.
Qed.

Lemma str_drop_app a b : Str.drop (String.length a) (a +:+ b) = b.
Proof.
  induction a as [|c a IH].
  - apply str_drop_0.
  - change (Str.drop (String.length a) (a +:+ b) = b). exact IH.
Qed.

Lemma rfind_app c a b :
  Str.rfind c (a +:+ b) =
    match Str.rfind c b with
    | Some j => Some (String.length a + j)
    | None => Str.rfind c a
    end.
Proof.
  induction a as [|x a IH].
  - change ("" +:+ b) with b. simpl. by destruct (Str.rfind c b).
  - change (Str.rfind c (String x a +:+ b))
      with (match Str.rfind c (a +:+ b) with
            | Some i => Some (S i)
            | None => if Ascii.eqb x c then Some 0 else None
            end).
    rewrite IH. simpl. by destruct (Str.rfind c b).
Qed.

Lemma rfind_lt c s i : Str.rfind c s = Some i → i < String.length s.
Proof.
  revert i. induction s as [|x s IH]; intros i; simpl; [done|].
  destruct (Str.rfind c s) as [j|].
  - intros [= <-]. specialize (IH j eq_refl). lia.
  - destruct (Ascii.eqb x c); intros [= <-]. lia.
Qed.

End StrFacts.

Section PathFacts.

Lemma str_take_all s : Str.take (String.length s) s = s.
Proof.
  induction s as [|c s IH]; [done|].
  change (String c (Str.take (String.length s) s) = String c s).
  by rewrite IH.
Qed.

Lemma name_suffix_cases nm :
  name_suffix nm = "" ∨
  ∃ i, 0 < i ∧ i < String.length nm - 1 ∧ name_suffix nm = Str.drop i nm.
Proof.
  unfold name_suffix. destruct (Str.rfind "." nm) as [i|]; [|by left].
  destruct (0 <? i) eqn:H0; [|by left].
  destruct (i <? String.length nm - 1) eqn:H1; [|by left].
  right. exists i. apply Nat.ltb_lt in H0, H1. done.
Qed.

(** A name is its stem followed by its suffix. *)
Lemma name_stem_suffix nm : name_stem nm +:+ name_suffix nm = nm.
Proof.
  unfold name_stem.
  destruct (name_suffix_cases nm) as [-> | (i & H0 & H1 & ->)].
  - simpl. rewrite Nat.sub_0_r, str_take_all.
    clear. induction nm as [|c s IH]; [done|].
    change (String c (s +:+ "") = String c s). by rewrite IH.
  - rewrite str_length_drop.
    replace (String.length nm - (String.length nm - i)) with i by lia.
    apply str_take_drop.
Qed.

Lemma name_stem_nonempty nm : nm ≠ "" → name_stem nm ≠ "".
Proof.
  intros Hnm. unfold name_stem.
  destruct (name_suffix_cases nm) as [-> | (i & H0 & H1 & ->)].
  - simpl. by rewrite Nat.sub_0_r, str_take_all.
  - rewrite str_length_drop.
    replace (String.length nm - (String.length nm - i)) with i by lia.
    intros Heq. apply (f_equal String.length) in Heq.
    rewrite str_length_take in Heq by lia. simpl in Heq. lia.
Qed.

(** The suffix and the stem of a name that ends in ['.xlsx']. *)
Lemma name_suffix_xlsx a : a ≠ "" → name_suffix (a +:+ ".xlsx") = ".xlsx".
Proof.
  intros Ha. unfold name_suffix. rewrite rfind_app.
  change (Str.rfind "." ".xlsx") with (Some 0). cbv beta iota.
  rewrite Nat.add_0_r, str_length_app.
  change (String.length ".xlsx") with 5.
  assert (0 < String.length a) by (destruct a; [done | simpl; lia]).
  replace (0 <? String.length a) with true by (symmetry; apply Nat.ltb_lt; lia).
  replace (String.length a <? String.length a + 5 - 1) with true
    by (symmetry; apply Nat.ltb_lt; lia).
  simpl. apply str_drop_app.
Qed.

Lemma name_stem_xlsx a : a ≠ "" → name_stem (a +:+ ".xlsx") = a.
Proof.
  intros Ha. unfold name_stem. rewrite name_suffix_xlsx by done.
  rewrite str_length_app. change (String.length ".xlsx") with 5.
  replace (String.length a + 5 - 5) with (String.length a) by lia.
  apply str_take_app.
Qed.

Lemma name_of_tail r t x : name (MkPath r (t ++ [x])) = x.
Proof. unfold name. simpl. apply List.last_last. Qed.

Lemma name_nonempty_tail p : name p ≠ "" → tail p ≠ [].
Proof. unfold name. destruct (tail p); [simpl; congruence | done]. Qed.

(** [with_suffix] puts the new suffix after the stem, whether or not the
    name had a suffix. *)
Lemma with_suffix_stem p sfx :
  name p ≠ "" →
  with_suffix p sfx =
    inr (MkPath (root p) (List.removelast (tail p) ++ [stem p +:+ sfx])).
Proof.
  intros Hnm. unfold with_suffix.
  destruct (String.eqb (name p) "") eqn:He.
  { apply String.eqb_eq in He. done. }
  do 3 f_equal. unfold stem, name_stem, suffix.
  destruct (String.eqb (name_suffix (name p)) "") eqn:Hs; [|done].
  apply String.eqb_eq in Hs. rewrite Hs. simpl.
  by rewrite Nat.sub_0_r, str_take_all.
Qed.

End PathFacts.

(** * The exporter *)

Section SaveFacts.

Variable E : Env.

(** The [try] block, step by step. *)
Lemma save_as_excel_try_run data fp kw st :
  save_as_excel_try E data fp kw st =
    match normalize_path fp with
    | inl e => (Raise e, st)
    | inr p =>
        match mkdir_fails E (parent p) with
        | Some e => (Raise e, st)
        | None =>
            let st1 := add_dir (parent p) st in
            match heap st !! data with
            | None => (Raise (Exn Exception "reference to no object"), st1)
            | Some df =>
                if bool_decide (is_Some (kw !! "engine"))
                then (Raise (Exn TypeError
                        "got multiple values for keyword argument 'engine'"), st1)
                else
                  match to_excel_fails E p df with
                  | Some e => (Raise e, st1)
                  | None =>
                      (Return (),
                       add_log (LogInfo ("Data saved to " +:+ to_str p))
                         (add_written (p, df, with_index_default kw) st1))
                  end
            end
        end
    end.
Proof.
  unfold save_as_excel_try, mbind, M_bind, lift, raise, mret, M_ret.
  destruct (normalize_path fp) as [e|p]; [done|].
  unfold mkdir. destruct (mkdir_fails E (parent p)) as [e|]; [done|].
  unfold modify, to_excel, deref, gets, mbind, M_bind, raise, mret, M_ret.
  cbn [heap add_dir]. destruct (heap st !! data) as [df|]; [|done].
  assert (with_index_default kw !! "engine" = kw !! "engine") as ->.
  { unfold with_index_default. by rewrite lookup_insert_ne. }
  destruct (bool_decide (is_Some (kw !! "engine"))); [done|].
  destruct (to_excel_fails E p df); done.
Qed.

Lemma save_as_excel_run data fp kw st :
  save_as_excel E data fp kw st =
    match save_as_excel_try E data fp kw st with
    | (Raise e, st') =>
        if caught_by [ValueError; FileNotFoundError; PermissionError] e
        then (Return (),
              add_log (LogError ("Failed to save data to Excel: " +:+ exn_msg e)) st')
        else (Raise e, st')
    | r => r
    end.
Proof.
  unfold save_as_excel, try_except.
  destruct (save_as_excel_try E data fp kw st) as [[a|e] st']; [done|].
  cbn [List.find fst snd].
  destruct (caught_by _ e); done.
Qed.

End SaveFacts.

(** * Path resolution of the loader *)

Lemma root_parent p : root (parent p) = root p.
Proof. unfold parent. by destruct (tail p). Qed.

(** C8: the loader's path resolution returns the configured path unchanged
    when it is absolute, and [cwd.parent / 'Datasets' / path] when it is
    relative: the components of the working directory's parent, then
    [Datasets], then the components of the configured path. *)
Theorem get_dataset_path_resolution (E : Env) (path : string) :
  (is_absolute (parse path) = true → get_dataset_path E path = parse path)
  ∧ (is_absolute (parse path) = false →
       get_dataset_path E path
         = truediv (truediv (parent (cwd E)) "Datasets") path
       ∧ get_dataset_path E path
         = MkPath (root (cwd E))
                  (tail (parent (cwd E)) ++ "Datasets" :: tail (parse path))).
Proof.
  unfold get_dataset_path. split; intros Habs; rewrite Habs; [done|].
  split; [done|].
  unfold truediv at 1. rewrite Habs.
  change (truediv (parent (cwd E)) "Datasets")
    with (MkPath (root (parent (cwd E))) (tail (parent (cwd E)) ++ ["Datasets"])).
  cbn [root tail]. rewrite root_parent, <- app_assoc. done.
Qed.

Example get_dataset_path_relative :
  get_dataset_path (MkEnv (parse "/home/u/proj") (λ _, inr []) (λ _, NoFile)
                          (λ _, None) (λ _ _, None)) "raw/stats.csv"
  = parse "/home/u/Datasets/raw/stats.csv".
Proof. reflexivity. Qed.

Example get_dataset_path_absolute :
  get_dataset_path (MkEnv (parse "/home/u/proj") (λ _, inr []) (λ _, NoFile)
                          (λ _, None) (λ _ _, None)) "/data/stats.csv"
  = parse "/data/stats.csv".
Proof. reflexivity. Qed.

(** * Claims on the exporter *)

Section SaveClaims.

Variable E : Env.

(** Whatever the [try] block raises in one of the three handled classes
    is logged and not raised again. *)
Lemma save_as_excel_catches data fp kw st e st' :
  save_as_excel_try E data fp kw st = (Raise e, st') →
  caught_by [ValueError; FileNotFoundError; PermissionError] e = true →
  save_as_excel E data fp kw st =
    (Return (),
     add_log (LogError ("Failed to save data to Excel: " +:+ exn_msg e)) st').
Proof. intros Htry Hc. by rewrite save_as_excel_run, Htry, Hc. Qed.

(** Case analysis along the steps of the exporter. *)
Ltac save_cases data fp kw st :=
  rewrite save_as_excel_run, save_as_excel_try_run;
  destruct (normalize_path fp) as [?|?];
  [| destruct (mkdir_fails E (parent _)) as [?|];
     [| cbv zeta; destruct (heap st !! data) as [?|];
        [ destruct (bool_decide (is_Some (kw !! "engine")));
          [| destruct (to_excel_fails E _ _) as [?|] ] |] ] ];
  try match goal with
      | |- context [caught_by ?h ?e] => destruct (caught_by h e)
      end;
  cbn.

(** The heap, the configuration and the dataset collection are not
    touched by the exporter. *)
Lemma save_as_excel_frame data fp kw st :
  let st' := (save_as_excel E data fp kw st).2 in
  heap st' = heap st ∧ config st' = config st ∧ datasets st' = datasets st.
Proof.
  save_cases data fp kw st; done.
Qed.

(** What the exporter writes: nothing, or one file at the normalized path. *)
Lemma save_as_excel_written data fp kw st :
  let st' := (save_as_excel E data fp kw st).2 in
  written st' = written st
  ∨ ∃ p df, normalize_path fp = inr p ∧ heap st !! data = Some df
            ∧ written st' = written st ++ [(p, df, with_index_default kw)].
Proof.
  save_cases data fp kw st; eauto 6.
Qed.

(** When no step fails, the file is written at the normalized path. *)
Lemma save_as_excel_success data fp kw st p df :
  normalize_path fp = inr p →
  mkdir_fails E (parent p) = None →
  heap st !! data = Some df →
  kw !! "engine" = None →
  to_excel_fails E p df = None →
  save_as_excel E data fp kw st =
    (Return (),
     add_log (LogInfo ("Data saved to " +:+ to_str p))
       (add_written (p, df, with_index_default kw) (add_dir (parent p) st))).
Proof.
  intros Hp Hm Hd Hk Hw.
  rewrite save_as_excel_run, save_as_excel_try_run, Hp, Hm, Hd, Hk, Hw.
  rewrite bool_decide_eq_false_2; [done | by intros [? ?]].
Qed.

(** C7: when the spreadsheet write step raises a value error, a
    missing-path error or a permission error (or an error of a class
    derived from these), [save_as_excel] logs it at error level and returns
    normally; no file is recorded as written. *)
Theorem save_as_excel_swallows_write_errors data file_path kwargs st p df e :
  normalize_path file_path = inr p →
  mkdir_fails E (parent p) = None →
  heap st !! data = Some df →
  kwargs !! "engine" = None →
  to_excel_fails E p df = Some e →
  caught_by [ValueError; FileNotFoundError; PermissionError] e = true →
  save_as_excel E data file_path kwargs st =
    (Return (),
     add_log (LogError ("Failed to save data to Excel: " +:+ exn_msg e))
       (add_dir (parent p) st)).
Proof.
  intros Hp Hm Hd Hk Hw Hc. apply save_as_excel_catches; [|done].
  rewrite save_as_excel_try_run, Hp, Hm, Hd, Hk, Hw.
  rewrite bool_decide_eq_false_2; [done | by intros [? ?]].
Qed.

Lemma normalize_path_other fp :
  Str.lower (suffix (parse fp)) ≠ ".xlsx" →
  name (parse fp) ≠ "" →
  normalize_path fp = inr (replace_extension (parse fp)).
Proof.
  intros Hsfx Hnm. unfold normalize_path.
  apply String.eqb_neq in Hsfx. rewrite Hsfx. cbn [negb].
  by apply with_suffix_stem.
Qed.

Lemma normalize_path_empty_name fp :
  Str.lower (suffix (parse fp)) ≠ ".xlsx" →
  name (parse fp) = "" →
  normalize_path fp = inl (Exn ValueError "path has an empty name").
Proof.
  intros Hsfx Hnm. unfold normalize_path, with_suffix.
  apply String.eqb_neq in Hsfx. rewrite Hsfx, Hnm. done.
Qed.

Lemma stem_without_suffix p : suffix p = "" → stem p = name p.
Proof.
  unfold stem, name_stem, suffix. intros ->.
  cbn [String.length]. by rewrite Nat.sub_0_r, str_take_all.
Qed.

Lemma replace_extension_facts p :
  name p ≠ "" →
  name p = stem p +:+ suffix p
  ∧ name (replace_extension p) = stem p +:+ ".xlsx"
  ∧ suffix (replace_extension p) = ".xlsx"
  ∧ stem (replace_extension p) = stem p
  ∧ parent (replace_extension p) = parent p
  ∧ (suffix p = "" → name (replace_extension p) = name p +:+ ".xlsx").
Proof.
  intros Hnm.
  assert (stem p ≠ "") as Hstem by (by apply name_stem_nonempty).
  assert (name (replace_extension p) = stem p +:+ ".xlsx") as Hname
    by apply name_of_tail.
  split; [symmetry; apply name_stem_suffix|].
  split; [done|].
  split; [unfold suffix; rewrite Hname; by apply name_suffix_xlsx|].
  split; [unfold stem at 1; rewrite Hname; by apply name_stem_xlsx|].
  split; [|intros Hs; by rewrite Hname, stem_without_suffix].
  apply name_nonempty_tail in Hnm.
  unfold parent, replace_extension. cbn [tail root].
  destruct (tail p) as [|x t] eqn:Ht; [done|].
  rewrite List.removelast_last.
  destruct (List.removelast (x :: t) ++ [stem p +:+ ".xlsx"]) eqn:Hl; [|done].
  by destruct (List.removelast (x :: t)).
Qed.

(** C6: for a path whose suffix is not the spreadsheet extension, the
    only path [save_as_excel] can write is the supplied one with its last
    suffix replaced by ['.xlsx'], not followed by it: same directory, same
    stem. A name without a suffix gains ['.xlsx']. When no step fails the
    file is written there. *)
Theorem save_as_excel_replaces_extension data file_path kwargs st :
  Str.lower (suffix (parse file_path)) ≠ ".xlsx" →
  let p := parse file_path in
  let st' := (save_as_excel E data file_path kwargs st).2 in
  (written st' = written st
   ∨ ∃ df, written st'
           = written st ++ [(replace_extension p, df, with_index_default kwargs)])
  ∧ (name p ≠ "" →
     normalize_path file_path = inr (replace_extension p)
     ∧ name p = stem p +:+ suffix p
     ∧ name (replace_extension p) = stem p +:+ ".xlsx"
     ∧ suffix (replace_extension p) = ".xlsx"
     ∧ stem (replace_extension p) = stem p
     ∧ parent (replace_extension p) = parent p
     ∧ (suffix p = "" → name (replace_extension p) = name p +:+ ".xlsx"))
  ∧ (name p ≠ "" → ∀ df,
     heap st !! data = Some df →
     mkdir_fails E (parent (replace_extension p)) = None →
     kwargs !! "engine" = None →
     to_excel_fails E (replace_extension p) df = None →
     written st'
     = written st ++ [(replace_extension p, df, with_index_default kwargs)]).
Proof.
  intros Hsfx p st'. split; [|split].
  - destruct (decide (name p = "")) as [Hnm|Hnm].
    + left. subst st'. rewrite save_as_excel_run, save_as_excel_try_run.
      rewrite normalize_path_empty_name by done. done.
    + destruct (save_as_excel_written data file_path kwargs st)
        as [Hw | (q & df & Hq & _ & Hw)]; [by left|].
      rewrite normalize_path_other in Hq by done. simplify_eq. eauto.
  - intros Hnm. split; [by apply normalize_path_other|].
    by apply replace_extension_facts.
  - intros Hnm df Hd Hm Hk Hw. subst st'.
    erewrite save_as_excel_success; eauto using normalize_path_other.
Qed.

(** C9: a path whose last suffix is ['.xlsx'] in any letter case is left
    as supplied: the only path [save_as_excel] can write is the parsed
    [file_path] itself, capitalization included, and when no step fails
    the file is written there. *)
Theorem save_as_excel_keeps_spreadsheet_path data file_path kwargs st :
  Str.lower (suffix (parse file_path)) = ".xlsx" →
  let p := parse file_path in
  let st' := (save_as_excel E data file_path kwargs st).2 in
  normalize_path file_path = inr p
  ∧ (written st' = written st
     ∨ ∃ df, written st' = written st ++ [(p, df, with_index_default kwargs)])
  ∧ (∀ df,
     heap st !! data = Some df →
     mkdir_fails E (parent p) = None →
     kwargs !! "engine" = None →
     to_excel_fails E p df = None →
     written st' = written st ++ [(p, df, with_index_default kwargs)]).
Proof.
  intros Hsfx p st'.
  assert (normalize_path file_path = inr p) as Hp.
  { subst p. unfold normalize_path. cbv zeta. by rewrite Hsfx. }
  split; [done|]. split.
  - destruct (save_as_excel_written data file_path kwargs st)
      as [Hw | (q & df & Hq & _ & Hw)]; [by left|].
    rewrite Hp in Hq. simplify_eq. eauto.
  - intros df Hd Hm Hk Hw. subst st'.
    erewrite save_as_excel_success; eauto.
Qed.

End SaveClaims.

Lemma save_as_excel_swallows_write_errors_witness :
  save_as_excel denied_env 1%positive "out/report.xlsx" ∅ one_table_state
  = (Return (),
     add_log (LogError "Failed to save data to Excel: Permission denied")
       (add_dir (parse "out") one_table_state)).
Proof.
  apply (save_as_excel_swallows_write_errors denied_env 1%positive
           "out/report.xlsx" ∅ one_table_state (parse "out/report.xlsx")
           one_table (Exn PermissionError "Permission denied"));
    reflexivity.
Defined.

Lemma save_as_excel_replaces_extension_witness :
  written (save_as_excel quiet_env 1%positive "out/report.tar.csv" ∅ one_table_state).2
  = [(parse "out/report.tar.xlsx", one_table, with_index_default ∅)].
Proof.
  assert (Str.lower (suffix (parse "out/report.tar.csv")) ≠ ".xlsx") as H
    by (vm_compute; discriminate).
  destruct (save_as_excel_replaces_extension quiet_env 1%positive
              "out/report.tar.csv" ∅ one_table_state H) as (_ & _ & Hw).
  apply Hw; [vm_compute; discriminate | reflexivity ..].
Defined.

Lemma save_as_excel_keeps_spreadsheet_path_witness :
  written (save_as_excel quiet_env 1%positive "out/Report.XlSX" ∅ one_table_state).2
  = [(MkPath "" ["out"; "Report.XlSX"], one_table, with_index_default ∅)].
Proof.
  destruct (save_as_excel_keeps_spreadsheet_path quiet_env 1%positive
              "out/Report.XlSX" ∅ one_table_state eq_refl) as (_ & _ & Hw).
  apply Hw; reflexivity.
Defined.

(** * The left join *)

Section MergeFacts.

Lemma filter_key_column k (f : list value → value) rrows :
  length (List.filter (λ r, key_eqb k (f r)) rrows)
  = match_count k (map f rrows).
Proof.
  unfold match_count. induction rrows as [|r rrows IH]; [done|].
  cbn [List.filter map]. destruct (key_eqb k (f r)); cbn [length]; by rewrite IH.
Qed.

Lemma left_join_rows_length li ri w cast lrows rrows :
  length (left_join_rows li ri w cast lrows rrows)
  = sum_list (map (λ k, max 1 (match_count k (map (λ r, cell r ri) rrows)))
                  (map (λ r, cell r li) lrows)).
Proof.
  induction lrows as [|l lrows IH]; [done|].
  change (length ((match List.filter (λ rrow, key_eqb (cell l li) (cell rrow ri)) rrows with
                   | [] => [l ++ replicate w NaN]
                   | ms => map (λ rrow, l ++ cast rrow) ms
                   end) ++ left_join_rows li ri w cast lrows rrows)
          = max 1 (match_count (cell l li) (map (λ r, cell r ri) rrows))
            + sum_list (map (λ k, max 1 (match_count k (map (λ r, cell r ri) rrows)))
                            (map (λ r, cell r li) lrows))).
  rewrite length_app, IH. f_equal.
  rewrite <- (filter_key_column (cell l li) (λ r, cell r ri) rrows).
  destruct (List.filter _ rrows) as [|m ms]; [done|].
  rewrite length_map. cbn [length]. lia.
Qed.

Lemma sum_max_ge (f : value → nat) (l : list value) :
  length l ≤ sum_list (map (λ k, max 1 (f k)) l).
Proof. induction l as [|x l IH]; cbn; lia. Qed.

Lemma sum_max_eq (f : value → nat) (l : list value) :
  (∀ k, k ∈ l → f k ≤ 1) →
  sum_list (map (λ k, max 1 (f k)) l) = length l.
Proof.
  induction l as [|x l IH]; intros H; [done|].
  cbn. rewrite IH by (intros k Hk; apply H; by right).
  specialize (H x (list_elem_of_here _ _)). lia.
Qed.

(** The rows and labels of a merge that succeeds. *)
Lemma merge_inr left right left_on right_on df :
  merge left right left_on right_on = inr df →
  ∃ li ri lt rt,
    positions left_on (columns left) = li :: lt
    ∧ positions right_on (columns right) = ri :: rt
    ∧ columns df = map (rename_overlap (columns right) "_x") (columns left)
                   ++ map (rename_overlap (columns left) "_y") (columns right)
    ∧ rows df = left_join_rows li ri (length (columns right))
                  (if unmatched li ri (rows left) (rows right)
                   then upcast_row (dtypes right) else id)
                  (rows left) (rows right).
Proof.
  unfold merge.
  destruct (positions right_on (columns right)) as [|ri rt]; [done|].
  destruct (positions left_on (columns left)) as [|li lt]; [done|].
  cbv zeta. destruct (negb _); [done|].
  destruct (suffix_collision _ _ || _); [done|].
  intros [= <-]. eauto 10.
Qed.

Lemma upcast_row_length ts r : length (upcast_row ts r) = length r.
Proof.
  revert ts. induction r as [|v r IH]; intros ts; [done|].
  cbn [upcast_row length]. by rewrite IH.
Qed.

Lemma merge_nrows left right left_on right_on df :
  merge left right left_on right_on = inr df →
  nrows df = sum_list (map (λ k, max 1 (match_count k (key_column right right_on)))
                           (key_column left left_on)).
Proof.
  intros (li & ri & lt & rt & Hl & Hr & _ & Hrows)%merge_inr.
  unfold nrows, key_column. rewrite Hrows, Hl, Hr.
  apply left_join_rows_length.
Qed.

Lemma length_key_column left left_on li lt :
  positions left_on (columns left) = li :: lt →
  length (key_column left left_on) = nrows left.
Proof. intros H. unfold key_column, nrows. rewrite H. apply length_map. Qed.

(** The result of a merge of well-formed tables is well formed. *)
Lemma merge_wf left right left_on right_on df :
  frame_wf left → frame_wf right →
  merge left right left_on right_on = inr df →
  frame_wf df.
Proof.
  intros Hl Hr (li & ri & lt & rt & _ & _ & Hcols & Hrows)%merge_inr.
  unfold frame_wf in *. rewrite Hcols, Hrows, length_app, !length_map.
  apply Forall_forall. intros r Hin%list_elem_of_In.
  apply in_flat_map in Hin as (lrow & Hlrow%list_elem_of_In & Hin).
  pose proof (proj1 (Forall_forall _ _) Hl lrow Hlrow) as Hlen. cbv beta in Hlen.
  destruct (matching ri (cell lrow li) (rows right)) as [|m ms] eqn:Hf.
  - apply list_elem_of_In, list_elem_of_singleton in Hin as ->.
    by rewrite length_app, length_replicate, Hlen.
  - apply in_map_iff in Hin as (rrow & <- & Hrrow).
    rewrite <- Hf in Hrrow. apply filter_In in Hrrow as [Hrrow%list_elem_of_In _].
    pose proof (proj1 (Forall_forall _ _) Hr rrow Hrrow) as Hlen'. cbv beta in Hlen'.
    rewrite length_app, Hlen. f_equal.
    destruct (unmatched _ _ _ _); [by rewrite upcast_row_length | done].
Qed.

(** C1 (amended): the left join of [player_stats] with [player_salaries]
    on [name == Player] yields, for every left row, one row per matching
    right row, and one row when nothing matches. The result therefore never
    has fewer rows than the left table, and has exactly as many when every
    [name] matches at most one [Player]. *)
Theorem merge_row_count (left right df : DataFrame) :
  merge left right "name" "Player" = inr df →
  let names := key_column left "name" in
  let players := key_column right "Player" in
  nrows df = sum_list (map (λ k, max 1 (match_count k players)) names)
  ∧ nrows left ≤ nrows df
  ∧ ((∀ k, k ∈ names → match_count k players ≤ 1) → nrows df = nrows left).
Proof.
  intros Hm names players.
  pose proof (merge_nrows _ _ _ _ _ Hm) as Hn. fold names players in Hn.
  destruct (merge_inr _ _ _ _ _ Hm) as (li & ri & lt & rt & Hl & _).
  pose proof (length_key_column _ _ _ _ Hl) as Hlen. fold names in Hlen.
  split; [done|]. rewrite Hn, <- Hlen. split.
  - apply sum_max_ge.
  - apply sum_max_eq.
Qed.

End MergeFacts.

(** C1 as stated fails: a [Player] that occurs twice doubles the left row. *)
Lemma merge_duplicate_player_adds_rows :
  merge alice_stats two_salaries "name" "Player" = inr two_salaries_merged
  ∧ nrows alice_stats = 1 ∧ nrows two_salaries_merged = 2.
Proof. repeat split; reflexivity. Qed.

Lemma merge_row_count_witness :
  nrows two_salaries_merged = 2 ∧ nrows alice_stats ≤ nrows two_salaries_merged.
Proof.
  destruct (merge_row_count alice_stats two_salaries two_salaries_merged eq_refl) as (H1 & H2 & _).
  split; [exact H1 | exact H2].
Defined.

(** * The derived column *)

Section FloatFacts.

Lemma SFeqb_refl_not_nan f : f ≠ S754_nan → SFeqb f f = true.
Proof.
  intros Hf. unfold SFeqb. destruct f as [s|s| |s m e]; try done.
  - by destruct s.
  - cbn. destruct s; rewrite Z.compare_refl, Pos.compare_cont_refl; done.
Qed.

Lemma is_nan_Prim2SF x : is_nan x = true → Prim2SF x = S754_nan.
Proof.
  unfold is_nan. rewrite FloatAxioms.eqb_spec. intros H.
  destruct (Prim2SF x) eqn:Ex; [| |done|];
    rewrite SFeqb_refl_not_nan in H by done; done.
Qed.

Lemma Prim2SF_is_nan x : Prim2SF x = S754_nan → is_nan x = true.
Proof. unfold is_nan. rewrite FloatAxioms.eqb_spec. by intros ->. Qed.

(** A missing dividend gives a missing quotient. *)
Lemma div_nan_l x y : is_nan x = true → is_nan (x / y) = true.
Proof.
  intros H%is_nan_Prim2SF. apply Prim2SF_is_nan.
  rewrite div_spec, H. done.
Qed.

(** A missing divisor gives a missing quotient. *)
Lemma div_nan_r x y : is_nan y = true → is_nan (x / y) = true.
Proof.
  intros H%is_nan_Prim2SF. apply Prim2SF_is_nan.
  rewrite div_spec, H. by destruct (Prim2SF x).
Qed.

(** Dividing by zero gives an infinity or NaN. *)
Lemma div_zero_r x y :
  is_zero y = true → is_nan (x / y) = true ∨ is_infinity (x / y) = true.
Proof.
  unfold is_zero, is_infinity. rewrite !FloatAxioms.eqb_spec, abs_spec.
  intros Hy.
  destruct (Prim2SF y) as [sy|sy| |sy my ey] eqn:Ey;
    try (by vm_compute in Hy); try (by destruct sy; vm_compute in Hy).
  destruct (Prim2SF x) as [sx|sx| |sx mx ex] eqn:Ex.
  - left. apply Prim2SF_is_nan. by rewrite div_spec, Ex, Ey.
  - right. rewrite div_spec, Ex, Ey. by destruct sx, sy.
  - left. apply Prim2SF_is_nan. by rewrite div_spec, Ex, Ey.
  - right. rewrite div_spec, Ex, Ey. by destruct sx, sy.
Qed.

End FloatFacts.

Section FrameFacts.

Lemma elem_of_positions_from i c cols j :
  j ∈ positions_from i c cols ↔ ∃ k, j = i + k ∧ cols !! k = Some c.
Proof.
  revert i. induction cols as [|h cols IH]; intros i; cbn [positions_from].
  - split; [by intros ?%elem_of_nil | by intros (k & _ & ?)].
  - case_bool_decide as Hh.
    + rewrite elem_of_cons, IH. split.
      * intros [-> | (k & -> & Hk)].
        -- exists 0. split; [lia | by subst].
        -- exists (S k). split; [lia | done].
      * intros ([|k] & -> & Hk); [left; lia|].
        right. exists k. split; [lia | done].
    + rewrite IH. split.
      * intros (k & -> & Hk). exists (S k). split; [lia | done].
      * intros ([|k] & -> & Hk); [by simplify_eq/=|].
        exists k. split; [lia | done].
Qed.

Lemma elem_of_positions c cols j : j ∈ positions c cols ↔ cols !! j = Some c.
Proof.
  unfold positions. rewrite elem_of_positions_from. split.
  - by intros (k & -> & Hk).
  - intros H. by exists j.
Qed.

Lemma positions_nil c cols : positions c cols = [] ↔ c ∉ cols.
Proof.
  split.
  - intros Hp (j & Hj)%list_elem_of_lookup.
    apply elem_of_positions in Hj. rewrite Hp in Hj. by apply elem_of_nil in Hj.
  - intros Hc. destruct (positions c cols) as [|j l] eqn:Hp; [done|].
    exfalso. apply Hc. apply list_elem_of_lookup. exists j.
    apply elem_of_positions. rewrite Hp. by left.
Qed.

Lemma positions_head c cols j l : positions c cols = j :: l → cols !! j = Some c.
Proof. intros Hp. apply elem_of_positions. rewrite Hp. by left. Qed.

Lemma positions_from_app i c a b :
  positions_from i c (a ++ b)
  = positions_from i c a ++ positions_from (i + length a) c b.
Proof.
  revert i. induction a as [|h a IH]; intros i; cbn [positions_from app length].
  - by rewrite Nat.add_0_r.
  - rewrite IH. replace (S i + length a) with (i + S (length a)) by lia.
    by case_bool_decide.
Qed.

Lemma positions_snoc_new c cols :
  c ∉ cols → positions c (cols ++ [c]) = [length cols].
Proof.
  intros Hc. unfold positions. rewrite positions_from_app.
  apply positions_nil in Hc. unfold positions in Hc. rewrite Hc.
  cbn. by rewrite bool_decide_eq_true_2.
Qed.

(** After [df[c] = s], every row holds its element of [s] under [c]. *)
Lemma setitem_cell df c s i r r' v :
  frame_wf df →
  rows df !! i = Some r →
  rows (setitem df c s) !! i = Some r' →
  values s !! i = Some v →
  cell_at (setitem df c s) r' c = Some v.
Proof.
  intros Hwf Hr Hr' Hv. unfold cell_at, setitem in *.
  assert (length r = length (columns df)) as Hlen.
  { eapply (Forall_lookup_1 _ _ _ _ Hwf), Hr. }
  case_bool_decide as Hc; cbn [columns rows] in *.
  - destruct (positions c (columns df)) as [|j l] eqn:Hp.
    { by apply positions_nil in Hp. }
    apply positions_head in Hp.
    rewrite lookup_zip_with, Hr in Hr'. cbn in Hr'. rewrite Hv in Hr'.
    cbn in Hr'. simplify_eq. f_equal. unfold cell.
    rewrite lookup_zip_with, Hp. cbn.
    destruct (r !! j) as [x|] eqn:Hx.
    + cbn. by rewrite bool_decide_eq_true_2.
    + apply lookup_ge_None in Hx. apply lookup_lt_Some in Hp. lia.
  - rewrite positions_snoc_new by done.
    rewrite lookup_zip_with, Hr in Hr'. cbn in Hr'. rewrite Hv in Hr'.
    cbn in Hr'. simplify_eq. f_equal. unfold cell.
    rewrite <- Hlen. by rewrite list_lookup_middle.
Qed.

Lemma setitem_nrows df c s :
  length (values s) = nrows df → nrows (setitem df c s) = nrows df.
Proof.
  intros Hs. unfold setitem, nrows in *.
  case_bool_decide; cbn [rows]; rewrite length_zip_with; lia.
Qed.

End FrameFacts.

Section DerivedColumn.

Lemma getitem_series df c s :
  getitem df c = inr (SelSeries s) →
  ∃ i, positions c (columns df) = [i]
       ∧ s = MkSeries (dtype_at df i) (map (λ r, cell r i) (rows df)).
Proof.
  unfold getitem. destruct (positions c (columns df)) as [|i [|j l]]; try done.
  intros [= <-]. eauto.
Qed.

Lemma object_truediv_length a b q :
  object_truediv a b = inr q → length a = length b → length q = length a.
Proof.
  revert b q. induction a as [|x a IH]; intros [|y b] q Hq Hlen; try done.
  - by simplify_eq/=.
  - cbn [object_truediv] in Hq.
    destruct (py_truediv x y) as [|v]; [done|].
    destruct (object_truediv a b) as [|s] eqn:Hs; [done|].
    simplify_eq/=. by rewrite (IH b s).
Qed.

Lemma masked_truediv_length a b q :
  masked_truediv a b = inr q → length a = length b → length q = length a.
Proof.
  revert b q. induction a as [|x a IH]; intros [|y b] q Hq Hlen; try done.
  - by simplify_eq/=.
  - cbn [masked_truediv] in Hq.
    destruct (masked_truediv a b) as [|s] eqn:Hs.
    { destruct (isna x || isna y); [done|]. by destruct (py_truediv x y). }
    assert (length s = length a) as Hl by (apply (IH b); [done | by simplify_eq/=]).
    destruct (isna x || isna y); [simplify_eq/=; by rewrite Hl|].
    destruct (py_truediv x y); simplify_eq/=. by rewrite Hl.
Qed.

(** A division that succeeds gives one element per row. *)
Lemma series_truediv_length a b q :
  series_truediv a b = inr q →
  length (values a) = length (values b) →
  length (values q) = length (values a).
Proof.
  unfold series_truediv. intros Hq Hlen.
  destruct (numeric (dtype_of a) && numeric (dtype_of b)).
  { simplify_eq. cbn. rewrite length_zip_with. lia. }
  destruct (object_truediv (values a) (values b)) as [e|s] eqn:Hs.
  - destruct (caught_by [TypeError] e); [|done].
    destruct (masked_truediv (values a) (values b)) as [|s] eqn:Hm; [done|].
    simplify_eq. cbn. by eapply masked_truediv_length.
  - simplify_eq. cbn. by eapply object_truediv_length.
Qed.





(** Two columns of numeric type always divide, as floats. *)
Lemma series_truediv_numeric a b :
  numeric (dtype_of a) = true → numeric (dtype_of b) = true →
  series_truediv a b
  = inr (MkSeries Float64 (zip_with float_truediv (values a) (values b))).
Proof. intros Ha Hb. unfold series_truediv. by rewrite Ha, Hb. Qed.

(** Line 40, inverted: the two operands are single columns, their division
    succeeded, and the quotient was assigned. *)
Lemma add_salary_per_minute_inr df df' :
  add_salary_per_minute df = inr df' →
  ∃ ia im q,
    positions "Annual" (columns df) = [ia]
    ∧ positions "minutes" (columns df) = [im]
    ∧ series_truediv (MkSeries (dtype_at df ia) (map (λ r, cell r ia) (rows df)))
                     (MkSeries (dtype_at df im) (map (λ r, cell r im) (rows df)))
      = inr q
    ∧ df' = setitem df "salary_per_minute" q.
Proof.
  unfold add_salary_per_minute.
  destruct (getitem df "Annual") as [|[a|]] eqn:Ha; [done| |];
    destruct (getitem df "minutes") as [|[m|]] eqn:Hm; try done.
  destruct (series_truediv a m) as [|q] eqn:Hq; [done|]. intros [= <-].
  apply getitem_series in Ha as (ia & Hia & ->).
  apply getitem_series in Hm as (im & Him & ->). eauto 10.
Qed.

(** The derived column has one cell per row. *)
Lemma add_salary_per_minute_nrows df df' :
  add_salary_per_minute df = inr df' → nrows df' = nrows df.
Proof.
  intros (ia & im & q & _ & _ & Hq & ->)%add_salary_per_minute_inr.
  apply series_truediv_length in Hq; [|cbn [values]; by rewrite !length_map].
  cbn [values] in Hq. rewrite length_map in Hq. by apply setitem_nrows.
Qed.

(** Line 40 succeeds whenever the two columns exist once and are of
    numeric type. *)
Lemma add_salary_per_minute_numeric df ia im :
  positions "Annual" (columns df) = [ia] →
  positions "minutes" (columns df) = [im] →
  numeric (dtype_at df ia) = true →
  numeric (dtype_at df im) = true →
  add_salary_per_minute df
  = inr (setitem df "salary_per_minute"
           (MkSeries Float64
              (zip_with float_truediv (map (λ r, cell r ia) (rows df))
                                      (map (λ r, cell r im) (rows df))))).
Proof.
  intros Ha Hm Hoa Hom. unfold add_salary_per_minute, getitem.
  rewrite Ha, Hm. by rewrite series_truediv_numeric.
Qed.

(** In a typed table, a cell of a column of numeric type is a number. *)
Lemma numeric_cell_to_float df r i :
  frame_typed df → r ∈ rows df → numeric (dtype_at df i) = true →
  is_Some (to_float (cell r i)).
Proof.
  intros Ht Hr Hn. unfold cell.
  destruct (r !! i) as [v|] eqn:Hv; [|by eexists].
  pose proof (proj1 (Forall_forall _ _) Ht r Hr) as Hrow. cbv beta in Hrow.
  destruct (Forall2_lookup_r _ _ _ _ _ Hrow Hv) as (t & Ht' & Hc).
  unfold dtype_at in Hn. rewrite Ht' in Hn. cbn in Hn, Hc |- *.
  destruct t, v; try done; by eexists.
Qed.

(** C5 (amended): when [Annual] and [minutes] are columns of numeric type
    of a typed merged table, line 40 succeeds: the table keeps its rows and
    every row's [salary_per_minute] is the [float64] quotient of that row's
    [Annual] by its [minutes]. The quotient is an infinity or NaN when
    [minutes] is zero, and NaN when [Annual] or [minutes] is missing. *)
Theorem salary_per_minute_is_quotient (df : DataFrame) (ia im : nat) :
  frame_wf df → frame_typed df →
  positions "Annual" (columns df) = [ia] →
  positions "minutes" (columns df) = [im] →
  numeric (dtype_at df ia) = true →
  numeric (dtype_at df im) = true →
  ∃ df',
    add_salary_per_minute df = inr df'
    ∧ nrows df' = nrows df
    ∧ ∀ i r,
        rows df !! i = Some r →
        ∃ r' a m x y,
          rows df' !! i = Some r'
          ∧ cell_at df r "Annual" = Some a
          ∧ cell_at df r "minutes" = Some m
          ∧ to_float a = Some x
          ∧ to_float m = Some y
          ∧ cell_at df' r' "salary_per_minute" = Some (VFloat (x / y))
          ∧ (is_zero y = true →
             is_nan (x / y) = true ∨ is_infinity (x / y) = true)
          ∧ (isna a = true ∨ isna m = true → is_nan (x / y) = true).
Proof.
  intros Hwf Ht Hia Him Hna Hnm.
  set (q := zip_with float_truediv (map (λ r, cell r ia) (rows df))
                                   (map (λ r, cell r im) (rows df))).
  exists (setitem df "salary_per_minute" (MkSeries Float64 q)).
  split; [by apply add_salary_per_minute_numeric|].
  assert (length q = nrows df) as Hlen.
  { unfold q, nrows. rewrite length_zip_with, !length_map. lia. }
  split; [by apply setitem_nrows|].
  intros i r Hr.
  assert (r ∈ rows df) as Hin by (apply list_elem_of_lookup; eauto).
  destruct (numeric_cell_to_float df r ia Ht Hin Hna) as [x Hx].
  destruct (numeric_cell_to_float df r im Ht Hin Hnm) as [y Hy].
  destruct (lookup_lt_is_Some_2 (rows (setitem df "salary_per_minute"
                                         (MkSeries Float64 q))) i) as [r' Hr'].
  { fold (nrows (setitem df "salary_per_minute" (MkSeries Float64 q))).
    rewrite setitem_nrows by done. by eapply lookup_lt_Some. }
  assert (q !! i = Some (VFloat (x / y))) as Hq.
  { unfold q. rewrite lookup_zip_with, !list_lookup_fmap, Hr. cbn.
    unfold float_truediv. by rewrite Hx, Hy. }
  exists r', (cell r ia), (cell r im), x, y.
  unfold cell_at at 1 2. rewrite Hia, Him.
  repeat split; try done.
  - by eapply setitem_cell.
  - by apply div_zero_r.
  - intros [Ha | Hm].
    + apply div_nan_l. destruct (cell r ia); simplify_eq/=; done.
    + apply div_nan_r. destruct (cell r im); simplify_eq/=; done.
Qed.

End DerivedColumn.

Example add_salary_per_minute_sample :
  add_salary_per_minute merged_sample = inr merged_sample_out.
Proof. reflexivity. Qed.

(** C5 as stated fails: [player_salaries] is read from a file that has
    its header and no record, so [Annual] is a column of type [object] that
    the join fills with missing values; Bob has played no minute, and line
    40 raises [ZeroDivisionError] instead of giving a marker. *)
Lemma salary_per_minute_zero_minutes_raises :
  read_csv (Csv ["Player"; "Annual"] [Object; Object] []) ["Player"; "Annual"]
  = inr no_salaries
  ∧ merge bob_stats no_salaries "name" "Player" = inr bob_merged
  ∧ cell_at bob_merged [VStr "Bob"; VStr "TeamB"; VInt 25; VStr "USA"; VStr "MF";
                        VInt 0; NaN; NaN] "minutes" = Some (VInt 0)
  ∧ add_salary_per_minute bob_merged
    = inl (Exn ZeroDivisionError "float division by zero")
  ∧ (player_salary_on_play_time no_salaries_env "utils/dataset.yaml" init_state).1
    = Raise (Exn ZeroDivisionError "float division by zero").
Proof. vm_compute. repeat split; reflexivity. Qed.

Lemma salary_per_minute_is_quotient_witness :
  ∃ df',
    add_salary_per_minute merged_sample = inr df'
    ∧ ∃ r', rows df' !! 1 = Some r'
            ∧ cell_at df' r' "salary_per_minute"
              = Some (VFloat (500000 / 0))
            ∧ is_infinity (500000 / 0) = true.
Proof.
  destruct (salary_per_minute_is_quotient merged_sample 3 1)
    as (df' & Hadd & _ & Hrows);
    [repeat constructor | repeat constructor | reflexivity ..|].
  exists df'. split; [exact Hadd|].
  destruct (Hrows 1 [VStr "Bob"; VInt 0; VStr "Bob"; VFloat 500000] eq_refl)
    as (r' & a & m & x & y & Hr' & Ha & Hm & Hx & Hy & Hcell & _).
  exists r'. split; [exact Hr'|].
  vm_compute in Ha, Hm. simplify_eq. vm_compute in Hx, Hy. simplify_eq.
  split; [exact Hcell | reflexivity].
Defined.

(** * A program logic for the monad *)

Section Hoare.

Lemma hoare_bind {A B} (P : state → Prop) (m : M A) (Q : A → state → Prop)
    (f : A → M B) (R : B → state → Prop) (X : state → Prop) :
  hoare P m Q X → (∀ a, hoare (Q a) (f a) R X) → hoare P (m ≫= f) R X.
Proof.
  intros Hm Hf st HP. specialize (Hm st HP).
  unfold mbind, M_bind. destruct (m st) as [[a|e] st']; [|done].
  by apply Hf.
Qed.

Lemma hoare_weaken {A} (P P' : state → Prop) (m : M A)
    (Q Q' : A → state → Prop) (X : state → Prop) :
  hoare P' m Q' X → (∀ st, P st → P' st) → (∀ a st, Q' a st → Q a st) →
  hoare P m Q X.
Proof.
  intros Hm HP HQ st Hst. specialize (Hm st (HP st Hst)).
  destruct (m st) as [[a|e] st']; [by apply HQ | done].
Qed.

Lemma hoare_stateless {A} (P : state → Prop) (m : M A) :
  stateless m → hoare P m (λ _, P) P.
Proof.
  intros Hm st HP. specialize (Hm st).
  destruct (m st) as [[a|e] st']; by simplify_eq/=.
Qed.

Lemma hoare_stateless_raise {A} (P X : state → Prop) (m : M A) :
  stateless m → (∀ st, P st → X st) → hoare P m (λ _, P) X.
Proof.
  intros Hm HX st HP. specialize (Hm st).
  destruct (m st) as [[a|e] st']; simplify_eq/=; auto.
Qed.

Lemma stateless_lift {A} (r : exn + A) : stateless (lift r).
Proof. by destruct r. Qed.

Lemma stateless_deref l : stateless (deref l).
Proof. intros st. unfold deref, gets, mbind, M_bind. by destruct (heap st !! l). Qed.

Lemma stateless_dict_lookup name : stateless (dict_lookup name).
Proof.
  intros st. unfold dict_lookup, gets, mbind, M_bind.
  by destruct (datasets st !! name).
Qed.

End Hoare.

(** * The report builder leaves the loaded tables alone *)

Section Frame.

Variable E : Env.

(** A new object never takes the place of a table of [h0]. *)
Lemma hoare_alloc h0 d0 df :
  hoare (tables_kept h0 d0) (alloc df)
        (λ l st, tables_kept h0 d0 st ∧ h0 !! l = None) (tables_kept h0 d0).
Proof.
  intros st [Hh Hd]. cbn.
  assert (heap st !! fresh (dom (heap st)) = None) as Hfresh.
  { apply not_elem_of_dom, is_fresh. }
  assert (h0 !! fresh (dom (heap st)) = None) as Hnew.
  { eapply lookup_weaken_None; done. }
  split; [split; [|done] | done].
  by apply insert_subseteq_r.
Qed.

(** Updating an object that is not one of [h0] keeps [h0]. *)
Lemma hoare_update h0 d0 l f :
  hoare (λ st, tables_kept h0 d0 st ∧ h0 !! l = None) (update l f)
        (λ _ st, tables_kept h0 d0 st ∧ h0 !! l = None)
        (tables_kept h0 d0).
Proof.
  intros st [[Hh Hd] Hl]. unfold update, deref, gets, set_heap, modify, mbind, M_bind.
  destruct (heap st !! l) as [df|]; cbn; [|done].
  split; [split; [|done] | done].
  by apply insert_subseteq_r.
Qed.

Lemma hoare_save h0 d0 data fp kw :
  hoare (tables_kept h0 d0) (save_as_excel E data fp kw)
        (λ _, tables_kept h0 d0) (tables_kept h0 d0).
Proof.
  intros st [Hh Hd].
  destruct (save_as_excel_frame E data fp kw st) as (H1 & _ & H3).
  destruct (save_as_excel E data fp kw st) as [[a|e] st'];
    cbn in *; unfold tables_kept; by rewrite H1, H3.
Qed.

Lemma hoare_build_report h0 d0 :
  hoare (tables_kept h0 d0) (build_report E)
        (λ _, tables_kept h0 d0) (tables_kept h0 d0).
Proof.
  unfold build_report.
  eapply hoare_bind; [apply hoare_stateless, stateless_dict_lookup|]. intros stats.
  eapply hoare_bind; [apply hoare_stateless, stateless_dict_lookup|]. intros salary.
  eapply hoare_bind; [apply hoare_stateless, stateless_deref|]. intros left.
  eapply hoare_bind; [apply hoare_stateless, stateless_deref|]. intros right.
  eapply hoare_bind; [apply hoare_stateless, stateless_lift|]. intros merged.
  eapply hoare_bind; [apply hoare_alloc|]. intros df. cbv beta.
  assert (∀ st, tables_kept h0 d0 st ∧ h0 !! df = None → tables_kept h0 d0 st)
    as Hdrop by (by intros st [? _]).
  eapply hoare_bind; [by apply hoare_stateless_raise, Hdrop; apply stateless_deref|].
  intros cur.
  eapply hoare_bind; [by apply hoare_stateless_raise, Hdrop; apply stateless_lift|].
  intros cur'.
  eapply hoare_bind; [apply hoare_update|]. intros [].
  eapply hoare_bind; [apply hoare_update|]. intros [].
  eapply hoare_bind; [by apply hoare_stateless_raise, Hdrop; apply stateless_deref|].
  intros cur2.
  eapply hoare_bind; [by apply hoare_stateless_raise, Hdrop; apply stateless_lift|].
  intros report.
  eapply hoare_bind.
  { eapply hoare_weaken; [apply (hoare_alloc h0 d0) | exact Hdrop | ].
    intros a st H. exact (proj1 H). }
  intros out. apply hoare_save.
Qed.

(** However [build_report] ends, the collection and the tables that were
    on the heap before are as they were. *)
Lemma build_report_frame (st : state) :
  tables_kept (heap st) (datasets st) (build_report E st).2.
Proof.
  pose proof (hoare_build_report (heap st) (datasets st) st) as H.
  destruct (build_report E st) as [[a|e] st1]; by apply H.
Qed.

(** The function is the loading phase followed by the building of the
    report. *)
Lemma player_salary_on_play_time_run config_file st :
  player_salary_on_play_time E config_file st =
    match load_phase E config_file st with
    | (Return _, st1) => build_report E st1
    | (Raise e, st1) => (Raise e, st1)
    end.
Proof.
  unfold player_salary_on_play_time, load_phase, mbind, M_bind.
  destruct (logger _ st) as [[a|e] st1]; [|done].
  destruct (DataLoader_init E config_file st1) as [[b|e] st2]; [|done].
  destruct (load_data E st2) as [[c|e] st3]; done.
Qed.

(** C10: let [st] be the state once [player_salary_on_play_time] has
    loaded the data and [st'] the state in which it ends, normally or not.
    The dataset collection is the same dict in both, and every table on the
    heap in [st] is unchanged in [st']: the join, the derived column, the
    renaming, the projection and the export touch none of them; in
    particular not the objects [player_stats] and [player_salaries] refer
    to. *)
Theorem report_keeps_loaded_tables (config_file : string) (st0 : state) :
  let st := (load_phase E config_file st0).2 in
  let st' := (player_salary_on_play_time E config_file st0).2 in
  datasets st' = datasets st
  ∧ heap st ⊆ heap st'
  ∧ ∀ name l df,
      datasets st !! name = Some l → heap st !! l = Some df →
      datasets st' !! name = Some l ∧ heap st' !! l = Some df.
Proof.
  intros st st'.
  assert (tables_kept (heap st) (datasets st) st') as [Hh Hd].
  { subst st st'. rewrite player_salary_on_play_time_run.
    destruct (load_phase E config_file st0) as [[a|e] st1]; cbn [snd].
    - apply build_report_frame.
    - done. }
  split; [done|]. split; [done|].
  intros name l df Hn Hl. rewrite Hd. split; [done|].
  by eapply lookup_weaken.
Qed.

End Frame.

(** * The scenario of the specification *)

(** C4: in the scenario, [player_salary_on_play_time] returns normally and
    hands the writer exactly one table, for [player_salary_report.xlsx]: the
    columns [name, team, age, nation, position, minutes, salary_per_minute]
    in this order and the single row of Alice with [salary_per_minute]
    1000.0. Both loaded tables hold their single row. *)
Theorem scenario_report_row :
  let r := player_salary_on_play_time scenario_env "utils/dataset.yaml" init_state in
  r.1 = Return ()
  ∧ written r.2
    = [(parse "player_salary_report.xlsx", scenario_report,
        {[ "index" := PBool false ]})]
  ∧ (datasets r.2 !! "player_stats" ≫= (heap r.2 !!.)) = Some alice_stats
  ∧ (datasets r.2 !! "player_salaries" ≫= (heap r.2 !!.))
    = Some salaries_alice.
Proof. vm_compute. repeat split; reflexivity. Qed.

(** * The loader *)

Section Loader.

Variable E : Env.

Lemma load_dataset_run dataset st :
  load_dataset E dataset st =
    match load_result E (config st) dataset with
    | inl e => (Raise e, st)
    | inr data => (Return (), store_dataset dataset data st)
    end.
Proof.
  unfold load_dataset, load_result, mbind, M_bind, gets, lift.
  destruct (dict_getitem (config st) dataset) as [e|entry]; [done|]. cbn.
  destruct (entry_getitem (cfg_path entry) "path") as [e|path]; [done|]. cbn.
  destruct (entry_getitem (cfg_columns entry) "columns") as [e|cols]; [done|]. cbn.
  destruct (read_csv _ cols) as [e|data]; done.
Qed.

Lemma load_data_run st :
  load_data E st =
    match for_each (config st).*1 (load_dataset E) st with
    | (Raise e, st') =>
        if load_caught e then (Return (), add_log (load_error_record e) st')
        else (Raise e, st')
    | r => r
    end.
Proof.
  unfold load_data, try_except, load_caught, load_error_record.
  unfold mbind at 1, M_bind at 1, gets. cbn [fst snd].
  destruct (for_each _ _ st) as [[a|e] st']; [done|].
  cbn [List.find fst snd].
  destruct (caught_by [EmptyDataError] e); [done|]. cbn [orb].
  destruct (caught_by _ e); done.
Qed.

Lemma store_dataset_loaded cfg dataset data st :
  load_result E cfg dataset = inr data →
  loaded E cfg dataset (store_dataset dataset data st).
Proof.
  intros Hr. exists (fresh (dom (heap st))), data. cbn.
  by rewrite !lookup_insert_eq.
Qed.

Lemma store_dataset_keeps cfg n dataset data st :
  load_result E cfg dataset = inr data →
  loaded E cfg n st → loaded E cfg n (store_dataset dataset data st).
Proof.
  intros Hr (l & d & Hn & Hl & Hd).
  destruct (decide (n = dataset)) as [->|Hne]; [by apply store_dataset_loaded|].
  exists l, d. cbn. rewrite lookup_insert_ne by done. split; [done|].
  split; [|done]. rewrite lookup_insert_ne; [done|].
  intros <-. apply (is_fresh (dom (heap st))). apply elem_of_dom. eauto.
Qed.

(** The loop over names whose read succeeds: it returns, every name of
    the loop is loaded, and the collection gained exactly these names. *)
Lemma for_each_load_ok names st :
  (∀ n, n ∈ names → ∃ data, load_result E (config st) n = inr data) →
  ∃ st', for_each names (load_dataset E) st = (Return (), st')
    ∧ config st' = config st ∧ log st' = log st
    ∧ dirs_made st' = dirs_made st ∧ written st' = written st
    ∧ dom (datasets st') = dom (datasets st) ∪ list_to_set names
    ∧ (∀ n, loaded E (config st) n st → loaded E (config st) n st')
    ∧ (∀ n, n ∈ names → loaded E (config st) n st').
Proof.
  revert st. induction names as [|n names IH]; intros st Hok.
  - exists st. cbn. repeat split; try done;
      [by rewrite ?list_to_set_nil, (right_id_L ∅ (∪)) | by intros ? ?%elem_of_nil].
  - destruct (Hok n) as [data Hdata]; [by left|].
    cbn [for_each]. unfold mbind, M_bind. rewrite load_dataset_run, Hdata.
    destruct (IH (store_dataset n data st)) as (st' & Hrun & Hc & Hl & Hd & Hw & Hdom & Hkeep & Hall).
    { intros n' Hn'. apply Hok. by right. }
    exists st'. cbn [config store_dataset] in *. rewrite Hrun.
    repeat split; try done.
    + rewrite Hdom. cbn [datasets store_dataset].
      rewrite dom_insert_L, list_to_set_cons.
      rewrite (comm_L (∪) _ (dom (datasets st))), <- (assoc_L (∪)). done.
    + intros n' Hn'. apply Hkeep. by apply store_dataset_keeps.
    + intros n' [->|Hn']%elem_of_cons; [|by apply Hall].
      apply Hkeep. by apply store_dataset_loaded.
Qed.

(** However the loop ends, what was loaded before stays loaded. *)
Lemma for_each_load_keeps names st n :
  loaded E (config st) n st →
  let st' := (for_each names (load_dataset E) st).2 in
  config st' = config st ∧ loaded E (config st) n st'.
Proof.
  revert st. induction names as [|m names IH]; intros st Hn; [done|].
  cbn [for_each]. unfold mbind, M_bind. rewrite load_dataset_run.
  destruct (load_result E (config st) m) as [e|data] eqn:Hm; [done|].
  apply (IH (store_dataset m data st)). by apply store_dataset_keeps.
Qed.

(** The loop stops at the first name whose read fails. *)
Lemma for_each_load_stops pre name post st e :
  (∀ n, n ∈ pre → ∃ data, load_result E (config st) n = inr data) →
  load_result E (config st) name = inl e →
  ∃ st', for_each (pre ++ name :: post) (load_dataset E) st = (Raise e, st')
    ∧ config st' = config st ∧ log st' = log st
    ∧ dirs_made st' = dirs_made st ∧ written st' = written st
    ∧ dom (datasets st') = dom (datasets st) ∪ list_to_set pre
    ∧ (∀ n, n ∈ pre → loaded E (config st) n st').
Proof.
  revert st. induction pre as [|n pre IH]; intros st Hok Hfail.
  - exists st. cbn [app for_each]. unfold mbind, M_bind.
    rewrite load_dataset_run, Hfail.
    repeat split; try done;
      [by rewrite ?list_to_set_nil, (right_id_L ∅ (∪)) | by intros ? ?%elem_of_nil].
  - destruct (Hok n) as [data Hdata]; [by left|].
    pose proof (for_each_load_keeps (pre ++ name :: post)
                  (store_dataset n data st) n
                  (store_dataset_loaded _ _ _ st Hdata)) as [_ Hkeep].
    destruct (IH (store_dataset n data st))
      as (st' & Hrun & Hc & Hl & Hd & Hw & Hdom & Hall);
      [intros n' Hn'; apply Hok; by right | done |].
    exists st'. rewrite Hrun in Hkeep.
    cbn [app for_each]. unfold mbind, M_bind. rewrite load_dataset_run, Hdata.
    split; [exact Hrun|]. do 4 (split; [done|]). split.
    + rewrite Hdom. cbn [datasets store_dataset].
      rewrite dom_insert_L, list_to_set_cons.
      rewrite (comm_L (∪) _ (dom (datasets st))), <- (assoc_L (∪)). done.
    + intros n' [->|Hn']%elem_of_cons; [exact Hkeep | by apply Hall].
Qed.

(** An exception no clause handles leaves [load_data]. *)
Lemma load_data_raises pre name post st e :
  (config st).*1 = pre ++ name :: post →
  (∀ n, n ∈ pre → ∃ data, load_result E (config st) n = inr data) →
  load_result E (config st) name = inl e →
  load_caught e = false →
  ∃ st', load_data E st = (Raise e, st').
Proof.
  intros Hcfg Hpre Hfail Hc.
  destruct (for_each_load_stops pre name post st e Hpre Hfail) as (st' & Hrun & _).
  exists st'. by rewrite load_data_run, Hcfg, Hrun, Hc.
Qed.

(** C2 (amended): when the read of one configured dataset fails with a
    missing file, a parse error or an empty file (or a key the entry
    lacks), and the datasets configured before it read well, [load_data]
    logs the error and returns normally; the collection then holds the
    datasets configured before the failing one, each with its table, and
    nothing else was added: the failing dataset and every dataset configured
    after it are absent. *)
Theorem load_data_stops_at_first_failure pre name post st e :
  (config st).*1 = pre ++ name :: post →
  (∀ n, n ∈ pre → ∃ data, load_result E (config st) n = inr data) →
  load_result E (config st) name = inl e →
  load_caught e = true →
  ∃ st', load_data E st = (Return (), st')
    ∧ log st' = log st ++ [load_error_record e]
    ∧ dom (datasets st') = dom (datasets st) ∪ list_to_set pre
    ∧ (∀ n, n ∈ pre → loaded E (config st) n st')
    ∧ (∀ n, n ∉ pre → datasets st !! n = None → datasets st' !! n = None).
Proof.
  intros Hcfg Hpre Hfail Hc.
  destruct (for_each_load_stops pre name post st e Hpre Hfail)
    as (st' & Hrun & _ & Hlog & _ & _ & Hdom & Hall).
  exists (add_log (load_error_record e) st').
  rewrite load_data_run, Hcfg, Hrun, Hc. split; [done|].
  cbn [log datasets add_log]. rewrite Hlog. split; [done|]. split; [done|].
  split.
  - intros n Hn. destruct (Hall n Hn) as (l & d & ? & ? & ?). by exists l, d.
  - intros n Hn Hnone. apply not_elem_of_dom. rewrite Hdom.
    apply not_elem_of_dom in Hnone.
    rewrite elem_of_union, elem_of_list_to_set. by intros [?|?].
Qed.

Lemma dict_getitem_NoDup {A} (d : list (string * A)) key v :
  NoDup d.*1 → (key, v) ∈ d → dict_getitem d key = inr v.
Proof.
  unfold dict_getitem. induction d as [|[k a] d IH]; intros Hnd Hin.
  - by apply elem_of_nil in Hin.
  - apply NoDup_cons in Hnd as [Hk Hnd]. cbn [List.find fst].
    apply elem_of_cons in Hin as [[= <- <-]|Hin].
    + by rewrite String.eqb_refl.
    + destruct (String.eqb k key) eqn:Hkk; [|by apply IH].
      apply String.eqb_eq in Hkk as ->. exfalso. apply Hk.
      apply list_elem_of_fmap. by exists (key, v).
Qed.

Lemma read_csv_columns header types recs cols :
  cols ⊆ header →
  read_csv (Csv header types recs) cols
  = inr (MkDF (filter (.∈ cols) header)
              (select_cells (map (λ h, bool_decide (h ∈ cols)) header) types)
              (map (select_cells (map (λ h, bool_decide (h ∈ cols)) header)) recs)).
Proof.
  intros Hsub. cbn [read_csv].
  assert (forallb (λ c, bool_decide (c ∈ header)) cols = true) as ->; [|done].
  apply forallb_forall. intros c Hc. apply bool_decide_eq_true_2, Hsub.
  by apply list_elem_of_In.
Qed.

Lemma select_cells_length (cols header : list string) (r : list value) :
  length r = length header →
  length (select_cells (map (λ h, bool_decide (h ∈ cols)) header) r)
  = length (filter (.∈ cols) header).
Proof.
  unfold select_cells. rewrite length_fmap.
  revert r. induction header as [|h header IH]; intros [|x r] Hlen; try done.
  cbn [map zip zip_with]. simplify_eq/=.
  destruct (decide (h ∈ cols)) as [Hh|Hh].
  - rewrite !filter_cons_True; [|done | by apply bool_decide_spec].
    cbn [length]. by rewrite IH.
  - rewrite !filter_cons_False; [by apply IH | done | ].
    cbn. by rewrite bool_decide_spec.
Qed.

(** A well-formed file is read into a well-formed table. *)
Lemma read_csv_wf header types recs cols df :
  csv_wf header recs → read_csv (Csv header types recs) cols = inr df → frame_wf df.
Proof.
  intros [_ Hrec]. cbn [read_csv]. destruct (forallb _ cols); [|done].
  intros [= <-]. unfold frame_wf. cbn [rows columns].
  apply Forall_fmap. eapply Forall_impl; [exact Hrec|].
  intros r Hr. by apply select_cells_length.
Qed.

Lemma filter_ext_elem (P Q : string → Prop)
    `{!∀ x, Decision (P x), !∀ x, Decision (Q x)} (l : list string) :
  (∀ x, x ∈ l → P x ↔ Q x) → filter P l = filter Q l.
Proof.
  induction l as [|x l IH]; intros Hext; [done|].
  assert (filter P l = filter Q l) as Hl
    by (apply IH; intros y Hy; apply Hext; by right).
  assert (P x ↔ Q x) as Hx by (apply Hext; by left).
  destruct (decide (P x)) as [HP|HP].
  - rewrite !filter_cons_True; [by rewrite Hl | by apply Hx | done].
  - rewrite !filter_cons_False; [done | by rewrite <- Hx | done].
Qed.

(** A configured order that follows the header's order is kept. *)
Lemma filter_sublist (cols header : list string) :
  NoDup header → cols `sublist_of` header → filter (.∈ cols) header = cols.
Proof.
  intros Hnd Hsub. induction Hsub as [|x c l Hsub IH|x c l Hsub IH].
  - done.
  - apply NoDup_cons in Hnd as [Hx Hnd].
    rewrite filter_cons_True by (by left). f_equal.
    transitivity (filter (.∈ c) l); [|by apply IH].
    apply filter_ext_elem.
    intros y Hy. rewrite elem_of_cons. split; [|by right].
    intros [->|?]; done.
  - apply NoDup_cons in Hnd as [Hx Hnd].
    rewrite filter_cons_False; [by apply IH|].
    intros Hin. apply Hx. by eapply sublist_subseteq.
Qed.

(** C3 (amended): for a configuration whose entries name readable CSV
    files that have the configured columns, [load_data] returns normally and
    every dataset name maps to a table. The table's columns are the file's
    header restricted to the configured columns, in the order of the header:
    the same columns as configured, and the configured sequence itself when
    it follows the header's order. *)
Theorem load_data_loads_every_dataset st :
  NoDup (config st).*1 →
  (∀ name entry, (name, entry) ∈ config st →
     ∃ cols header recs, reads_csv E entry cols header recs ∧ cols ⊆ header) →
  ∃ st', load_data E st = (Return (), st')
    ∧ ∀ name entry cols header recs,
        (name, entry) ∈ config st →
        reads_csv E entry cols header recs →
        ∃ l df, datasets st' !! name = Some l
                ∧ heap st' !! l = Some df
                ∧ columns df = filter (.∈ cols) header
                ∧ (∀ c, c ∈ columns df ↔ c ∈ cols)
                ∧ (NoDup header → cols `sublist_of` header → columns df = cols)
                ∧ nrows df = length recs.
Proof.
  intros Hnd Hwf.
  assert (∀ name entry cols header recs,
            (name, entry) ∈ config st → reads_csv E entry cols header recs →
            cols ⊆ header ∧
            ∃ types,
              load_result E (config st) name
              = read_csv (Csv header types recs) cols) as Hres.
  { intros name entry cols header recs Hin (path & types & Hp & Hc & Hf).
    destruct (Hwf name entry Hin)
      as (cols' & header' & recs' & (path' & types' & Hp' & Hc' & Hf') & Hsub).
    simplify_eq. rewrite Hf in Hf'. simplify_eq. split; [done|]. exists types'.
    unfold load_result. rewrite (dict_getitem_NoDup _ _ _ Hnd Hin), Hp, Hc. cbn.
    by rewrite Hf. }
  destruct (for_each_load_ok (config st).*1 st)
    as (st' & Hrun & _ & _ & _ & _ & _ & _ & Hall).
  { intros n ((n' & entry) & Heq & Hin)%list_elem_of_fmap. cbn in Heq. subst n.
    destruct (Hwf _ _ Hin) as (cols & header & recs & Hreads & Hsub).
    destruct (Hres _ _ _ _ _ Hin Hreads) as [_ [types ->]].
    rewrite read_csv_columns by done. eauto. }
  exists st'. split; [by rewrite load_data_run, Hrun|].
  intros name entry cols header recs Hin Hreads.
  destruct (Hres _ _ _ _ _ Hin Hreads) as [Hsub [types Hload]].
  destruct (Hall name) as (l & df & Hl & Hdf & Hr).
  { apply list_elem_of_fmap. by exists (name, entry). }
  rewrite Hload, read_csv_columns in Hr by done. simplify_eq.
  eexists l, _. split; [done|]. split; [done|]. cbn [columns rows nrows].
  split; [done|]. split; [|split].
  - intros c. rewrite list_elem_of_filter. split; [by intros [? _]|].
    intros Hc. split; [done | by apply Hsub].
  - apply filter_sublist.
  - unfold nrows. cbn. by rewrite length_map.
Qed.

End Loader.

(** C2 as stated fails: only [player_stats] fails to read, [load_data]
    returns normally, and [player_salaries], which is configured after it and
    would read well, is absent from the collection. *)
Lemma load_data_skips_datasets_after_failure :
  let r := load_data missing_stats_env (configured scenario_config) in
  load_result missing_stats_env scenario_config "player_stats"
  = inl (Exn FileNotFoundError "No such file or directory")
  ∧ load_result missing_stats_env scenario_config "player_salaries"
    = inr salaries_alice
  ∧ r.1 = Return ()
  ∧ datasets r.2 !! "player_salaries" = None.
Proof. vm_compute. repeat split; reflexivity. Qed.

Lemma load_data_stops_at_first_failure_witness :
  ∃ st', load_data missing_stats_env (configured salaries_first_config)
         = (Return (), st')
    ∧ log st' = [LogException
                   "An error occurred while loading the data: No such file or directory"]
    ∧ dom (datasets st') = ∅ ∪ list_to_set ["player_salaries"].
Proof.
  destruct (load_data_stops_at_first_failure missing_stats_env
              ["player_salaries"] "player_stats" []
              (configured salaries_first_config)
              (Exn FileNotFoundError "No such file or directory"))
    as (st' & Hrun & Hlog & Hdom & _).
  - reflexivity.
  - intros n Hn. apply list_elem_of_singleton in Hn as ->.
    eexists. reflexivity.
  - reflexivity.
  - reflexivity.
  - exists st'. split; [exact Hrun|]. split; [exact Hlog | exact Hdom].
Defined.

Example load_data_missing_column_raises :
  (load_data short_stats_env (configured scenario_config)).1
  = Raise (Exn ValueError
             "Usecols do not match columns, columns expected but not found").
Proof. reflexivity. Qed.

(** C3 as stated fails: the loaded table has the header's order
    [Player, Annual], not the configured order [Annual, Player]. *)
Lemma load_data_keeps_header_order :
  let r := load_data scenario_env (configured swapped_config) in
  r.1 = Return ()
  ∧ (datasets r.2 !! "player_salaries" ≫= (heap r.2 !!.))
    = Some salaries_alice
  ∧ ["Player"; "Annual"] ≠ ["Annual"; "Player"].
Proof. vm_compute. repeat split; [reflexivity .. | discriminate]. Qed.

Lemma load_data_loads_every_dataset_witness :
  ∃ st', load_data scenario_env (configured swapped_config) = (Return (), st')
    ∧ ∃ l df, datasets st' !! "player_salaries" = Some l
              ∧ heap st' !! l = Some df
              ∧ columns df = filter (.∈ ["Annual"; "Player"]) ["Player"; "Annual"].
Proof.
  destruct (load_data_loads_every_dataset scenario_env (configured swapped_config))
    as (st' & Hrun & Hall).
  - apply (bool_decide_unpack _). vm_compute. exact I.
  - intros name entry Hin. apply list_elem_of_singleton in Hin. simplify_eq.
    exists ["Annual"; "Player"], ["Player"; "Annual"], [[VStr "Alice"; VInt 900000]].
    split.
    + exists "sal.csv", [Object; Int64]. repeat split; reflexivity.
    + intros c Hc. apply (bool_decide_unpack _).
      apply elem_of_cons in Hc as [->|Hc]; [reflexivity|].
      apply list_elem_of_singleton in Hc as ->. reflexivity.
  - exists st'. split; [exact Hrun|].
    destruct (Hall "player_salaries"
                (MkCfg (Some "sal.csv") (Some ["Annual"; "Player"]))
                ["Annual"; "Player"] ["Player"; "Annual"]
                [[VStr "Alice"; VInt 900000]])
      as (l & df & Hl & Hdf & Hcols & _).
    + apply list_elem_of_singleton. reflexivity.
    + exists "sal.csv", [Object; Int64]. repeat split; reflexivity.
    + exists l, df. split; [exact Hl|]. split; [exact Hdf | exact Hcols].
Defined.

(** * Further properties of the exporter *)

Section SaveMore.

Variable E : Env.

Lemma lower_xlsx : Str.lower ".xlsx" = ".xlsx".
Proof. reflexivity. Qed.

(** The path the writer is given always ends in the spreadsheet extension. *)
Lemma normalize_path_suffix fp p :
  normalize_path fp = inr p → Str.lower (suffix p) = ".xlsx".
Proof.
  unfold normalize_path.
  destruct (String.eqb (Str.lower (suffix (parse fp))) ".xlsx") eqn:Hsfx; cbn [negb].
  - intros [= <-]. by apply String.eqb_eq.
  - unfold with_suffix.
    destruct (String.eqb (name (parse fp)) "") eqn:Hnm; [done|].
    apply String.eqb_neq in Hnm.
    pose proof (with_suffix_stem (parse fp) ".xlsx" Hnm) as Hw.
    unfold with_suffix in Hw. rewrite (proj2 (String.eqb_neq _ _) Hnm) in Hw.
    rewrite Hw. intros [= <-].
    destruct (replace_extension_facts (parse fp) Hnm) as (_ & _ & Hs & _).
    unfold replace_extension in Hs. by rewrite Hs.
Qed.

(** X3: whatever the supplied path and options, at most one [to_excel]
    call of a [save_as_excel] call returns; the path it was given has a
    suffix that is ['.xlsx'] up to letter case, the table it was given is the
    one [data] refers to, and its options are the caller's with [index] set
    to [False] unless the caller gave it. *)
Theorem save_as_excel_written_file data file_path kwargs st :
  let st' := (save_as_excel E data file_path kwargs st).2 in
  written st' = written st
  ∨ ∃ p df kw,
      written st' = written st ++ [(p, df, kw)]
      ∧ Str.lower (suffix p) = ".xlsx"
      ∧ heap st !! data = Some df
      ∧ kw !! "index" = Some (default (PBool false) (kwargs !! "index"))
      ∧ ∀ k, k ≠ "index" → kw !! k = kwargs !! k.
Proof.
  destruct (save_as_excel_written E data file_path kwargs st)
    as [Hw | (p & df & Hp & Hd & Hw)]; [by left|].
  right. exists p, df, (with_index_default kwargs).
  split; [done|]. split; [by eapply normalize_path_suffix|]. split; [done|].
  unfold with_index_default. split.
  - by rewrite lookup_insert_eq.
  - intros k Hk. by rewrite lookup_insert_ne.
Qed.

(** X4: an [engine] option of the caller collides with the one
    [save_as_excel] passes itself: the resulting [TypeError] is not among the
    handled classes and reaches the caller, after the directory was ensured
    and with nothing written or logged. *)
Theorem save_as_excel_engine_option data file_path kwargs st p df v :
  normalize_path file_path = inr p →
  mkdir_fails E (parent p) = None →
  heap st !! data = Some df →
  kwargs !! "engine" = Some v →
  save_as_excel E data file_path kwargs st
  = (Raise (Exn TypeError "got multiple values for keyword argument 'engine'"),
     add_dir (parent p) st).
Proof.
  intros Hp Hm Hd Hk.
  rewrite save_as_excel_run, save_as_excel_try_run, Hp, Hm, Hd, Hk.
  by rewrite bool_decide_eq_true_2.
Qed.

(** X5: a [to_excel] call returns only after [mkdir] has returned for
    the parent of the path the writer is given, in the same call of
    [save_as_excel]; when [mkdir] raises, or the path cannot be normalized,
    no [to_excel] call returns. At most one [mkdir] call of a
    [save_as_excel] call returns, and it is the one for the parent of the
    normalized path. *)
Theorem save_as_excel_directory_first data file_path kwargs st :
  let st' := (save_as_excel E data file_path kwargs st).2 in
  (dirs_made st' = dirs_made st ∧ written st' = written st)
  ∨ ∃ p, normalize_path file_path = inr p
         ∧ mkdir_fails E (parent p) = None
         ∧ dirs_made st' = dirs_made st ++ [parent p]
         ∧ (written st' = written st
            ∨ ∃ df, written st' = written st ++ [(p, df, with_index_default kwargs)]).
Proof.
  rewrite save_as_excel_run, save_as_excel_try_run.
  destruct (normalize_path file_path) as [e|p].
  { left. by destruct (caught_by _ e). }
  destruct (mkdir_fails E (parent p)) as [e|] eqn:Hm.
  { left. by destruct (caught_by _ e). }
  right. exists p. split; [done|]. split; [done|]. cbv zeta.
  destruct (heap st !! data) as [df|]; [|by split; [|left]].
  destruct (bool_decide _); [by split; [|left]|].
  destruct (to_excel_fails E p df) as [e|].
  - destruct (caught_by _ e); by split; [|left].
  - split; [done|]. right. by exists df.
Qed.

(** X6: [save_as_excel] never lets a value error, a missing-path error or
    a permission error (or an error derived from these) reach its caller,
    whichever step raised it. When it returns it has logged exactly one
    record; when it raises it has logged none. *)
Theorem save_as_excel_outcome data file_path kwargs st :
  match save_as_excel E data file_path kwargs st with
  | (Return _, st') => ∃ r, log st' = log st ++ [r]
  | (Raise e, st') =>
      caught_by [ValueError; FileNotFoundError; PermissionError] e = false
      ∧ log st' = log st
  end.
Proof.
  rewrite save_as_excel_run, save_as_excel_try_run.
  destruct (normalize_path file_path) as [e|p].
  { destruct (caught_by _ e) eqn:Hc; cbn; eauto. }
  destruct (mkdir_fails E (parent p)) as [e|].
  { destruct (caught_by _ e) eqn:Hc; cbn; eauto. }
  cbv zeta. destruct (heap st !! data) as [df|]; [|done].
  destruct (bool_decide _); [done|].
  destruct (to_excel_fails E p df) as [e|]; [|cbn; eauto].
  destruct (caught_by _ e) eqn:Hc; cbn; eauto.
Qed.

End SaveMore.

Lemma save_as_excel_engine_option_witness :
  (save_as_excel quiet_env 1%positive "out/report.xlsx" {[ "engine" := PStr "xlsxwriter" ]}
     one_table_state).1
  = Raise (Exn TypeError "got multiple values for keyword argument 'engine'").
Proof.
  rewrite (save_as_excel_engine_option quiet_env 1%positive "out/report.xlsx"
             {[ "engine" := PStr "xlsxwriter" ]} one_table_state
             (parse "out/report.xlsx") one_table (PStr "xlsxwriter"));
    reflexivity.
Defined.

(** * The CSV snapshot *)

Section Snapshot.

Variable to_csv_fails : string → DataFrame → option exn.

Lemma save_dataset_csv_run dataset_name save_path files st :
  save_dataset_csv to_csv_fails dataset_name save_path files st =
    match datasets st !! dataset_name with
    | None =>
        (Return files,
         add_log (LogError ("Dataset '" +:+ dataset_name +:+ "' not found.")) st)
    | Some l =>
        match heap st !! l with
        | None => (Raise (Exn Exception "reference to no object"), st)
        | Some df =>
            match to_csv_fails save_path df with
            | Some e => (Raise e, st)
            | None =>
                (Return (files ++ [(save_path, df)]),
                 add_log (LogInfo ("Dataset '" +:+ dataset_name +:+ "' saved to "
                                   +:+ save_path)) st)
            end
        end
    end.
Proof.
  unfold save_dataset_csv, mbind, M_bind, gets, deref.
  destruct (datasets st !! dataset_name) as [l|]; [|done].
  unfold mbind, M_bind, gets. destruct (heap st !! l) as [df|]; [|done].
  cbn. destruct (to_csv_fails save_path df); done.
Qed.

(** X1: for a name that is not in the collection, [save_dataset_csv]
    writes no file, logs one error record and returns normally; the heap and
    the collection are as before. *)
Theorem save_dataset_csv_unknown dataset_name save_path files st :
  datasets st !! dataset_name = None →
  save_dataset_csv to_csv_fails dataset_name save_path files st
  = (Return files,
     add_log (LogError ("Dataset '" +:+ dataset_name +:+ "' not found.")) st).
Proof. intros Hn. by rewrite save_dataset_csv_run, Hn. Qed.

(** X2: in a sound collection, [save_dataset_csv] either hands [to_csv]
    exactly the table the name refers to, for the given path, and logs one
    info record, or it raises the writer's error unhandled, or the name is
    unknown; it writes at most one file and never changes the heap or the
    collection. *)
Theorem save_dataset_csv_effect dataset_name save_path files st :
  collection_sound st →
  match save_dataset_csv to_csv_fails dataset_name save_path files st with
  | (Return files', st') =>
      heap st' = heap st ∧ datasets st' = datasets st
      ∧ ((datasets st !! dataset_name = None ∧ files' = files)
         ∨ ∃ l df, datasets st !! dataset_name = Some l
                   ∧ heap st !! l = Some df
                   ∧ to_csv_fails save_path df = None
                   ∧ files' = files ++ [(save_path, df)])
  | (Raise e, st') =>
      st' = st
      ∧ ∃ l df, datasets st !! dataset_name = Some l
                ∧ heap st !! l = Some df
                ∧ to_csv_fails save_path df = Some e
  end.
Proof.
  intros [Hlive _]. rewrite save_dataset_csv_run.
  destruct (datasets st !! dataset_name) as [l|] eqn:Hn; [|by eauto].
  destruct (Hlive _ _ Hn) as [df Hdf]. rewrite Hdf.
  destruct (to_csv_fails save_path df) eqn:Hf; cbn; eauto 10.
Qed.

End Snapshot.

Lemma save_dataset_csv_unknown_witness :
  save_dataset_csv (λ _ _, None) "player_stats" "out.csv" [] init_state
  = (Return [], add_log (LogError "Dataset 'player_stats' not found.") init_state).
Proof.
  apply (save_dataset_csv_unknown (λ _ _, None) "player_stats" "out.csv" []
           init_state).
  reflexivity.
Defined.

(** * Further properties of the loader *)

Section LoaderMore.

Variable E : Env.

(** However the loop ends, it only adds: tables to the heap, and names
    of the loop to the collection. *)
Lemma for_each_load_frame names st :
  let st' := (for_each names (load_dataset E) st).2 in
  config st' = config st ∧ log st' = log st
  ∧ dirs_made st' = dirs_made st ∧ written st' = written st
  ∧ heap st ⊆ heap st'
  ∧ dom (datasets st') ⊆ dom (datasets st) ∪ list_to_set names.
Proof.
  revert st. induction names as [|n names IH]; intros st.
  - cbn. repeat split; try done. apply union_subseteq_l.
  - cbn [for_each]. unfold mbind, M_bind. rewrite load_dataset_run.
    destruct (load_result E (config st) n) as [e|data].
    { cbn. repeat split; try done. apply union_subseteq_l. }
    destruct (IH (store_dataset n data st)) as (Hc & Hl & Hd & Hw & Hh & Hdom).
    cbn [config log dirs_made written heap datasets store_dataset] in *.
    repeat split; try done.
    + etrans; [|exact Hh]. apply insert_subseteq.
      apply not_elem_of_dom, is_fresh.
    + etrans; [exact Hdom|]. rewrite dom_insert_L, list_to_set_cons.
      intros x. rewrite !elem_of_union.
      intros [[?|?]|?]; [by right; left | by left | by right; right].
Qed.

(** X7: however [load_data] ends, every table that was on the heap is
    still there unchanged, the configuration is the same, no directory is
    made and no file written, the collection gained at most names of the
    configuration, and the log gained at most one record. *)
Theorem load_data_only_adds st :
  let st' := (load_data E st).2 in
  heap st ⊆ heap st'
  ∧ config st' = config st
  ∧ dirs_made st' = dirs_made st ∧ written st' = written st
  ∧ dom (datasets st') ⊆ dom (datasets st) ∪ list_to_set (config st).*1
  ∧ (log st' = log st ∨ ∃ r, log st' = log st ++ [r]).
Proof.
  rewrite load_data_run.
  pose proof (for_each_load_frame (config st).*1 st) as (Hc & Hl & Hd & Hw & Hh & Hdom).
  destruct (for_each _ _ st) as [[a|e] st1]; cbn [snd] in *.
  - repeat split; try done. by left.
  - destruct (load_caught e); cbn [snd add_log heap config dirs_made written
                                   datasets log];
      repeat split; try done; [right; rewrite Hl; eauto | by left].
Qed.

Lemma store_dataset_sound dataset data st :
  collection_sound st → collection_sound (store_dataset dataset data st).
Proof.
  intros [Hlive Hinj].
  assert (∀ n, datasets st !! n ≠ Some (fresh (dom (heap st)))) as Hfresh.
  { intros n Hn. destruct (Hlive _ _ Hn) as [df Hdf].
    apply (is_fresh (dom (heap st))), elem_of_dom. eauto. }
  split; cbn [datasets heap store_dataset].
  - intros n l. destruct (decide (n = dataset)) as [->|Hne].
    + rewrite lookup_insert_eq. intros [= <-]. by rewrite lookup_insert_eq.
    + rewrite lookup_insert_ne by done. intros Hn.
      destruct (Hlive _ _ Hn) as [df Hdf]. exists df.
      rewrite lookup_insert_ne; [done|]. intros <-. by eapply Hfresh.
  - intros n m l.
    destruct (decide (n = dataset)) as [->|Hn], (decide (m = dataset)) as [->|Hm];
      rewrite ?lookup_insert_eq, ?lookup_insert_ne by done; try done.
    + intros [= <-] Hm'. by apply Hfresh in Hm'.
    + intros Hn' [= <-]. by apply Hfresh in Hn'.
    + apply Hinj.
Qed.

Lemma for_each_load_sound names st :
  collection_sound st → collection_sound (for_each names (load_dataset E) st).2.
Proof.
  revert st. induction names as [|n names IH]; intros st Hs; [done|].
  cbn [for_each]. unfold mbind, M_bind. rewrite load_dataset_run.
  destruct (load_result E (config st) n) as [e|data]; [done|].
  by apply IH, store_dataset_sound.
Qed.

(** X8: [load_data] keeps the collection sound: afterwards, whether it
    succeeded or not, every name still refers to a table on the heap and no
    two names share a table, so an update through one name can never be seen
    through another. *)
Theorem load_data_sound st :
  collection_sound st → collection_sound (load_data E st).2.
Proof.
  intros Hs. rewrite load_data_run.
  pose proof (for_each_load_sound (config st).*1 st Hs) as Hs'.
  destruct (for_each _ _ st) as [[a|e] st1]; cbn [snd] in *; [done|].
  destruct (load_caught e); done.
Qed.

(** X9: when every configured read succeeds, [load_data] returns without
    logging anything, and the collection gained exactly the configured
    names. *)
Theorem load_data_success_silent st :
  (∀ n, n ∈ (config st).*1 → ∃ data, load_result E (config st) n = inr data) →
  ∃ st', load_data E st = (Return (), st')
    ∧ log st' = log st
    ∧ dom (datasets st') = dom (datasets st) ∪ list_to_set (config st).*1.
Proof.
  intros Hok.
  destruct (for_each_load_ok E (config st).*1 st Hok)
    as (st' & Hrun & _ & Hl & _ & _ & Hdom & _).
  exists st'. by rewrite load_data_run, Hrun.
Qed.

(** X10: a file that lacks a configured column makes the reader raise a
    [ValueError], which no clause of [load_data] handles: it reaches the
    caller, nothing is logged, and the datasets configured before stay
    loaded. *)
Theorem load_data_missing_column pre name post st entry cols header recs c :
  (config st).*1 = pre ++ name :: post →
  NoDup (config st).*1 →
  (∀ n, n ∈ pre → ∃ data, load_result E (config st) n = inr data) →
  (name, entry) ∈ config st →
  reads_csv E entry cols header recs →
  c ∈ cols → c ∉ header →
  ∃ st', load_data E st
         = (Raise (Exn ValueError
                     "Usecols do not match columns, columns expected but not found"),
            st')
    ∧ log st' = log st
    ∧ (∀ n, n ∈ pre → loaded E (config st) n st').
Proof.
  intros Hcfg Hnd Hpre Hin (path & types & Hp & Hc & Hf) Hcin Hch.
  assert (load_result E (config st) name
          = inl (Exn ValueError
                   "Usecols do not match columns, columns expected but not found"))
    as Hfail.
  { unfold load_result. rewrite (dict_getitem_NoDup _ _ _ Hnd Hin), Hp, Hc. cbn.
    rewrite Hf. cbn [read_csv].
    destruct (forallb _ cols) eqn:Hall; [|done].
    exfalso. apply Hch. rewrite forallb_forall in Hall.
    eapply bool_decide_eq_true_1, Hall. by apply list_elem_of_In. }
  destruct (for_each_load_stops E pre name post st _ Hpre Hfail)
    as (st' & Hrun & _ & Hlog & _ & _ & _ & Hall).
  exists st'. by rewrite load_data_run, Hcfg, Hrun.
Qed.

End LoaderMore.

Section LoadThenSnapshot.

Variable E : Env.
Variable to_csv_fails : string → DataFrame → option exn.

(** X11: after a [load_data] in which every read succeeded, from a sound
    collection, [save_dataset_csv] of a configured name hands [to_csv]
    exactly the table that was read for that name. *)
Theorem load_then_save_dataset_csv st name data save_path files :
  collection_sound st →
  (∀ n, n ∈ (config st).*1 → ∃ d, load_result E (config st) n = inr d) →
  name ∈ (config st).*1 →
  load_result E (config st) name = inr data →
  to_csv_fails save_path data = None →
  ∃ st1 st2,
    load_data E st = (Return (), st1)
    ∧ save_dataset_csv to_csv_fails name save_path files st1
      = (Return (files ++ [(save_path, data)]), st2)
    ∧ heap st2 = heap st1 ∧ datasets st2 = datasets st1.
Proof.
  intros Hs Hok Hname Hdata Hcsv.
  destruct (for_each_load_ok E (config st).*1 st Hok)
    as (st1 & Hrun & _ & _ & _ & _ & _ & _ & Hall).
  destruct (Hall name Hname) as (l & d & Hl & Hd & Hres).
  rewrite Hdata in Hres. simplify_eq.
  eexists st1, _. split; [by rewrite load_data_run, Hrun|].
  rewrite save_dataset_csv_run, Hl, Hd, Hcsv. done.
Qed.

(** X12: a dataset whose read failed, or that is configured after one
    whose read failed, is absent after [load_data]; [save_dataset_csv] for it
    writes nothing and logs that the dataset was not found. *)
Theorem failed_load_then_save_dataset_csv st pre name post e other save_path files :
  (config st).*1 = pre ++ name :: post →
  (∀ n, n ∈ pre → ∃ d, load_result E (config st) n = inr d) →
  load_result E (config st) name = inl e →
  load_caught e = true →
  other ∉ pre → datasets st !! other = None →
  ∃ st1,
    load_data E st = (Return (), st1)
    ∧ save_dataset_csv to_csv_fails other save_path files st1
      = (Return files,
         add_log (LogError ("Dataset '" +:+ other +:+ "' not found.")) st1).
Proof.
  intros Hcfg Hpre Hfail Hc Hother Hnone.
  destruct (for_each_load_stops E pre name post st e Hpre Hfail)
    as (st' & Hrun & _ & _ & _ & _ & Hdom & _).
  exists (add_log (load_error_record e) st').
  split; [by rewrite load_data_run, Hcfg, Hrun, Hc|].
  rewrite save_dataset_csv_run. cbn [datasets add_log].
  assert (datasets st' !! other = None) as ->; [|done].
  apply not_elem_of_dom. rewrite Hdom. apply not_elem_of_dom in Hnone.
  rewrite elem_of_union, elem_of_list_to_set. by intros [?|?].
Qed.

End LoadThenSnapshot.

(** A loader that has only read its configuration has a sound collection. *)
Lemma configured_sound cfg : collection_sound (configured cfg).
Proof.
  split; cbn; intros *; by rewrite lookup_empty.
Qed.

Lemma scenario_reads_ok n :
  n ∈ scenario_config.*1 →
  ∃ data, load_result scenario_env scenario_config n = inr data.
Proof.
  cbn. intros Hn. apply elem_of_cons in Hn as [->|Hn]; [eexists; reflexivity|].
  apply list_elem_of_singleton in Hn as ->. eexists; reflexivity.
Qed.

Lemma one_dataset_state_sound : collection_sound one_dataset_state.
Proof.
  split; cbn.
  - intros n l [_ <-]%lookup_singleton_Some. by rewrite lookup_singleton_eq.
  - by intros n m l [<- _]%lookup_singleton_Some [<- _]%lookup_singleton_Some.
Qed.

Lemma save_dataset_csv_effect_witness :
  match save_dataset_csv (λ _ _, None) "players" "out.csv" [] one_dataset_state with
  | (Return files', st') =>
      heap st' = heap one_dataset_state ∧ datasets st' = datasets one_dataset_state
      ∧ ((datasets one_dataset_state !! "players" = None ∧ files' = [])
         ∨ ∃ l df, datasets one_dataset_state !! "players" = Some l
                   ∧ heap one_dataset_state !! l = Some df
                   ∧ (λ (_ : string) (_ : DataFrame), @None exn) "out.csv" df = None
                   ∧ files' = [] ++ [("out.csv", df)])
  | (Raise e, st') =>
      st' = one_dataset_state
      ∧ ∃ l df, datasets one_dataset_state !! "players" = Some l
                ∧ heap one_dataset_state !! l = Some df
                ∧ (λ (_ : string) (_ : DataFrame), @None exn) "out.csv" df = Some e
  end.
Proof.
  exact (save_dataset_csv_effect (λ _ _, None) "players" "out.csv" []
           one_dataset_state one_dataset_state_sound).
Defined.

Lemma load_data_sound_witness :
  collection_sound (load_data scenario_env (configured scenario_config)).2.
Proof.
  exact (load_data_sound scenario_env (configured scenario_config)
           (configured_sound _)).
Defined.

Lemma load_data_success_silent_witness :
  ∃ st', load_data scenario_env (configured scenario_config) = (Return (), st')
    ∧ log st' = []
    ∧ dom (datasets st') = ∅ ∪ list_to_set ["player_stats"; "player_salaries"].
Proof.
  exact (load_data_success_silent scenario_env (configured scenario_config)
           scenario_reads_ok).
Defined.

Lemma load_data_missing_column_witness :
  ∃ st', load_data short_stats_env (configured scenario_config)
         = (Raise (Exn ValueError
                     "Usecols do not match columns, columns expected but not found"),
            st')
    ∧ log st' = [].
Proof.
  destruct (load_data_missing_column short_stats_env [] "player_stats"
              ["player_salaries"] (configured scenario_config)
              (MkCfg (Some "stats.csv")
                 (Some ["name"; "team"; "age"; "nation"; "position"; "minutes"]))
              ["name"; "team"; "age"; "nation"; "position"; "minutes"]
              ["name"; "team"; "age"; "nation"; "position"]
              [[VStr "Alice"; VStr "TeamA"; VInt 22; VStr "USA"; VStr "FW"]]
              "minutes")
    as (st' & Hrun & Hlog & _).
  - reflexivity.
  - apply (bool_decide_unpack _). vm_compute. exact I.
  - intros n Hn. by apply elem_of_nil in Hn.
  - cbn. by left.
  - exists "stats.csv", [Object; Object; Int64; Object; Object].
    repeat split; reflexivity.
  - apply (bool_decide_unpack _). vm_compute. exact I.
  - apply (bool_decide_unpack _). vm_compute. exact I.
  - exists st'. split; [exact Hrun | exact Hlog].
Defined.

Lemma load_then_save_dataset_csv_witness :
  ∃ st1 st2,
    load_data scenario_env (configured scenario_config) = (Return (), st1)
    ∧ save_dataset_csv (λ _ _, None) "player_salaries" "out/sal.csv" [] st1
      = (Return [("out/sal.csv", salaries_alice)],
         st2)
    ∧ heap st2 = heap st1 ∧ datasets st2 = datasets st1.
Proof.
  apply (load_then_save_dataset_csv scenario_env (λ _ _, None)
           (configured scenario_config) "player_salaries"
           salaries_alice
           "out/sal.csv" []).
  - apply configured_sound.
  - apply scenario_reads_ok.
  - apply (bool_decide_unpack _). vm_compute. exact I.
  - reflexivity.
  - reflexivity.
Defined.

Lemma failed_load_then_save_dataset_csv_witness :
  ∃ st1,
    load_data missing_stats_env (configured scenario_config) = (Return (), st1)
    ∧ save_dataset_csv (λ _ _, None) "player_salaries" "out/sal.csv" [] st1
      = (Return [],
         add_log (LogError "Dataset 'player_salaries' not found.") st1).
Proof.
  apply (failed_load_then_save_dataset_csv missing_stats_env (λ _ _, None)
           (configured scenario_config) [] "player_stats" ["player_salaries"]
           (Exn FileNotFoundError "No such file or directory")
           "player_salaries" "out/sal.csv" []).
  - reflexivity.
  - intros n Hn. by apply elem_of_nil in Hn.
  - reflexivity.
  - reflexivity.
  - apply not_elem_of_nil.
  - reflexivity.
Defined.

(** * Further properties of the report function *)

Section ReportMore.

Variable E : Env.

Lemma load_phase_run config_file cfg st0 :
  yaml_at E config_file = inr cfg →
  load_phase E config_file st0 = load_data E (loader_ready cfg config_file st0).
Proof.
  intros Hy. unfold load_phase, DataLoader_init, logger, modify, mbind, M_bind, lift.
  rewrite Hy. cbn. unfold loader_ready. by rewrite <- app_assoc.
Qed.

(** X13: when the configuration file cannot be opened or parsed, the
    error reaches the caller of [player_salary_on_play_time]: no dataset is
    read, no directory made, no file written, and only the opening record is
    logged. *)
Theorem report_config_error config_file e st0 :
  yaml_at E config_file = inl e →
  player_salary_on_play_time E config_file st0
  = (Raise e,
     MkState (heap st0) (config st0) ∅
             (log st0
              ++ [LogInfo "Generating player salary report based on play minutes..."])
             (dirs_made st0) (written st0)).
Proof.
  intros Hy.
  unfold player_salary_on_play_time, DataLoader_init, logger, modify, mbind,
    M_bind, lift.
  rewrite Hy. done.
Qed.

(** Without one of its two datasets the report cannot be built: the
    lookup raises [KeyError] before anything else happens. *)
Lemma build_report_missing_stats st :
  datasets st !! "player_stats" = None →
  build_report E st = (Raise (Exn KeyError "player_stats"), st).
Proof.
  intros Hn. unfold build_report, dict_lookup, gets.
  unfold mbind at 1, M_bind at 1. unfold mbind at 1, M_bind at 1. by rewrite Hn.
Qed.

Lemma build_report_missing_salaries st l :
  datasets st !! "player_stats" = Some l →
  datasets st !! "player_salaries" = None →
  build_report E st = (Raise (Exn KeyError "player_salaries"), st).
Proof.
  intros Hs Hn. unfold build_report, dict_lookup, gets.
  unfold mbind at 1, M_bind at 1. unfold mbind at 1, M_bind at 1. rewrite Hs.
  unfold mret, M_ret.
  unfold mbind at 1, M_bind at 1. unfold mbind at 1, M_bind at 1. by rewrite Hn.
Qed.

(** X14: when the read of one of the two datasets fails with an error
    [load_data] handles (a missing file, say), or the dataset is configured
    after such a failure, [player_salary_on_play_time] does not end with that
    error, which is only logged: it ends with [KeyError] for [player_stats]
    when that dataset is absent, and for [player_salaries] otherwise, and it
    writes nothing. *)
Theorem report_missing_dataset config_file cfg pre name post e st0 :
  yaml_at E config_file = inr cfg →
  cfg.*1 = pre ++ name :: post →
  (∀ n, n ∈ pre → ∃ d, load_result E cfg n = inr d) →
  load_result E cfg name = inl e →
  load_caught e = true →
  "player_stats" ∉ pre ∨ "player_salaries" ∉ pre →
  ∃ st',
    player_salary_on_play_time E config_file st0
    = (Raise (Exn KeyError (if bool_decide ("player_stats" ∈ pre)
                            then "player_salaries" else "player_stats")),
       st')
    ∧ log st'
      = log st0
        ++ [LogInfo "Generating player salary report based on play minutes...";
            LogInfo ("DataLoader initialized with config file: " +:+ config_file);
            load_error_record e]
    ∧ written st' = written st0 ∧ dirs_made st' = dirs_made st0.
Proof.
  intros Hy Hcfg Hpre Hfail Hc Hmiss.
  rewrite player_salary_on_play_time_run, (load_phase_run _ cfg) by done.
  set (st := loader_ready cfg config_file st0).
  destruct (for_each_load_stops E pre name post st e Hpre Hfail)
    as (st1 & Hrun & _ & Hlog & Hd & Hw & Hdom & Hall).
  rewrite load_data_run. cbn [config loader_ready st]. rewrite Hcfg.
  rewrite Hrun, Hc.
  set (st2 := add_log (load_error_record e) st1).
  assert (∀ n, n ∉ pre → datasets st2 !! n = None) as Habs.
  { intros n Hn. apply not_elem_of_dom. cbn [datasets add_log st2].
    rewrite Hdom. cbn. rewrite dom_empty_L, elem_of_union, elem_of_list_to_set.
    intros [Hin|Hin]; [by apply elem_of_empty in Hin | done]. }
  assert (log st2
          = log st0
            ++ [LogInfo "Generating player salary report based on play minutes...";
                LogInfo ("DataLoader initialized with config file: " +:+ config_file);
                load_error_record e]) as Hlog2.
  { cbn [log add_log st2]. rewrite Hlog. cbn [log loader_ready st].
    by rewrite <- !app_assoc. }
  exists st2. case_bool_decide as Hstats.
  - destruct (Hall _ Hstats) as (l & d & Hl & _).
    destruct Hmiss as [Hm|Hm]; [done|].
    rewrite (build_report_missing_salaries st2 l) by auto. done.
  - rewrite build_report_missing_stats by auto. done.
Qed.

End ReportMore.

Lemma report_config_error_witness :
  (player_salary_on_play_time no_config_env "utils/dataset.yaml" init_state).1
  = Raise (Exn FileNotFoundError "No such file or directory").
Proof.
  rewrite (report_config_error no_config_env "utils/dataset.yaml"
             (Exn FileNotFoundError "No such file or directory") init_state);
    reflexivity.
Defined.

Lemma report_missing_dataset_witness :
  (player_salary_on_play_time missing_stats_env "utils/dataset.yaml" init_state).1
  = Raise (Exn KeyError "player_stats").
Proof.
  destruct (report_missing_dataset missing_stats_env "utils/dataset.yaml"
              scenario_config [] "player_stats" ["player_salaries"]
              (Exn FileNotFoundError "No such file or directory") init_state)
    as (st' & Hrun & _).
  - reflexivity.
  - reflexivity.
  - intros n Hn. by apply elem_of_nil in Hn.
  - reflexivity.
  - reflexivity.
  - left. apply not_elem_of_nil.
  - by rewrite Hrun.
Defined.

Section ReportTable.

Variable E : Env.

Ltac step_heap :=
  repeat first [ rewrite lookup_insert_eq
               | progress cbn
               | progress (unfold deref, gets, mbind, M_bind) ].

(** With both tables in place, [build_report] computes [report_table]
    of them; an error ends it, otherwise the result is a new object that is
    handed to the exporter. Nothing is logged or written before that. *)
Lemma build_report_run st l1 l2 left right :
  datasets st !! "player_stats" = Some l1 → heap st !! l1 = Some left →
  datasets st !! "player_salaries" = Some l2 → heap st !! l2 = Some right →
  match report_table left right with
  | inl e =>
      ∃ st', build_report E st = (Raise e, st')
             ∧ written st' = written st ∧ dirs_made st' = dirs_made st
             ∧ log st' = log st
  | inr report =>
      ∃ l st1, build_report E st
               = save_as_excel E l "player_salary_report.xlsx" ∅ st1
               ∧ heap st1 !! l = Some report
               ∧ written st1 = written st ∧ dirs_made st1 = dirs_made st
               ∧ log st1 = log st
  end.
Proof.
  intros Hd1 Hh1 Hd2 Hh2.
  unfold report_table, build_report, dict_lookup, deref, alloc, update,
    set_heap, modify, gets, lift, raise.
  unfold mbind, M_bind, mret, M_ret. cbn.
  rewrite Hd1, Hd2, Hh1, Hh2.
  destruct (merge left right "name" "Player") as [e|merged]; [by eauto|].
  cbn. destruct (add_salary_per_minute merged) as [e|df] eqn:Hadd.
  { eexists. split;
      [rewrite lookup_insert_eq; cbn; rewrite Hadd; reflexivity | cbn; done]. }
  destruct (getitem_list _ report_columns) as [e|report] eqn:Hget.
  { eexists. split; [step_heap; rewrite Hadd; step_heap; rewrite Hget; reflexivity
                    | cbn; done]. }
  eexists _, _.
  split; [step_heap; rewrite Hadd; step_heap; rewrite Hget; cbn; reflexivity|].
  cbn. by rewrite lookup_insert_eq.
Qed.

Lemma positions_from_absent i c cols : c ∉ cols → positions_from i c cols = [].
Proof.
  revert i. induction cols as [|h cols IH]; intros i Hc; [done|].
  cbn [positions_from]. apply not_elem_of_cons in Hc as [Hh Hc].
  rewrite bool_decide_eq_false_2 by done. by apply IH.
Qed.

(** A label of a table with distinct labels has one position. *)
Lemma positions_from_single i c cols :
  NoDup cols → c ∈ cols → ∃ j, positions_from i c cols = [j].
Proof.
  revert i. induction cols as [|h cols IH]; intros i Hnd Hc.
  - by apply elem_of_nil in Hc.
  - apply NoDup_cons in Hnd as [Hh Hnd]. cbn [positions_from].
    case_bool_decide as Heq.
    + subst h. rewrite positions_from_absent by done. eauto.
    + apply elem_of_cons in Hc as [->|Hc]; [done|]. by apply IH.
Qed.

Lemma getitem_list_inr df cs report :
  getitem_list df cs = inr report →
  (∀ c, c ∈ cs → c ∈ columns df)
  ∧ columns report
    = map (λ i, default "" (columns df !! i))
          (flat_map (λ c, positions c (columns df)) cs)
  ∧ nrows report = nrows df.
Proof.
  unfold getitem_list.
  destruct (List.find _ cs) as [c|] eqn:Hfind; [done|]. intros [= <-].
  split; [|split; [done | unfold nrows; cbn; by rewrite length_map]].
  intros c Hc. pose proof (find_none _ _ Hfind c) as Hn.
  apply list_elem_of_In in Hc. specialize (Hn Hc). cbv beta in Hn.
  apply negb_false_iff in Hn. by apply bool_decide_eq_true_1 in Hn.
Qed.

Lemma flat_map_positions_labels cols cs :
  ∀ c, c ∈ map (λ i, default "" (cols !! i)) (flat_map (λ c, positions c cols) cs)
       → c ∈ cs.
Proof.
  intros c (i & -> & Hi)%list_elem_of_fmap.
  apply list_elem_of_In, in_flat_map in Hi as (c' & Hc' & Hi).
  apply list_elem_of_In, elem_of_positions in Hi. rewrite Hi. cbn.
  by apply list_elem_of_In.
Qed.

Lemma flat_map_positions_NoDup cols cs :
  NoDup cols → (∀ c, c ∈ cs → c ∈ cols) →
  map (λ i, default "" (cols !! i)) (flat_map (λ c, positions c cols) cs) = cs.
Proof.
  intros Hnd. induction cs as [|c cs IH]; intros Hin; [done|].
  cbn [List.flat_map]. rewrite map_app, IH by (intros c' Hc'; apply Hin; by right).
  destruct (positions_from_single 0 c cols Hnd) as [j Hj]; [apply Hin; by left|].
  fold (positions c cols) in Hj. rewrite Hj. cbn.
  by rewrite (positions_head _ _ _ _ Hj).
Qed.

(** X15: when the report can be computed, it has one row per row of the
    join, so at least one per row of [player_stats]: no player is dropped.
    Its labels are exactly the seven report columns, and it has exactly these
    seven columns, in order, when the normalized labels of the joined table
    are distinct. *)
Theorem report_table_shape (left right report : DataFrame) :
  report_table left right = inr report →
  nrows left ≤ nrows report
  ∧ (∀ c, c ∈ columns report ↔ c ∈ report_columns)
  ∧ ∃ merged df,
      merge left right "name" "Player" = inr merged
      ∧ add_salary_per_minute merged = inr df
      ∧ nrows report = nrows merged
      ∧ (NoDup (map normalize_label (columns df)) → columns report = report_columns).
Proof.
  unfold report_table.
  destruct (merge left right "name" "Player") as [|merged] eqn:Hm; [done|].
  destruct (add_salary_per_minute merged) as [|df] eqn:Ha; [done|].
  intros (Hin & Hcols & Hn)%getitem_list_inr. cbn [columns] in Hin, Hcols.
  assert (nrows df = nrows merged) as Hdf
    by (by apply add_salary_per_minute_nrows).
  assert (nrows report = nrows merged) as Hrm.
  { rewrite Hn. unfold nrows in *. cbn. exact Hdf. }
  split.
  { rewrite Hrm, (merge_nrows _ _ _ _ _ Hm).
    destruct (merge_inr _ _ _ _ _ Hm) as (li & ri & lt & rt & Hl & _).
    rewrite <- (length_key_column _ _ _ _ Hl). apply sum_max_ge. }
  split.
  { intros c. split.
    - rewrite Hcols. apply flat_map_positions_labels.
    - intros Hc. rewrite Hcols. apply list_elem_of_fmap.
      destruct (positions c (map normalize_label (columns df))) as [|i l] eqn:Hp.
      { apply positions_nil in Hp. by specialize (Hin c Hc). }
      exists i. rewrite (positions_head _ _ _ _ Hp). split; [done|].
      apply list_elem_of_In, in_flat_map. exists c.
      split; [by apply list_elem_of_In|]. rewrite Hp. by left. }
  exists merged, df. repeat split; try done.
  intros Hnd. rewrite Hcols. by apply flat_map_positions_NoDup.
Qed.

(** X16: from a state that holds both tables, whatever [build_report]
    hands to the writer is [report_table] of the two tables, for the file
    [player_salary_report.xlsx] and with [index] off; when [report_table]
    fails, its error ends the function and nothing is written. *)
Theorem build_report_writes_report_table st l1 l2 left right :
  datasets st !! "player_stats" = Some l1 → heap st !! l1 = Some left →
  datasets st !! "player_salaries" = Some l2 → heap st !! l2 = Some right →
  let r := build_report E st in
  match report_table left right with
  | inl e => r.1 = Raise e ∧ written r.2 = written st
  | inr report =>
      written r.2 = written st
      ∨ written r.2
        = written st ++ [(parse "player_salary_report.xlsx", report,
                          {[ "index" := PBool false ]})]
  end.
Proof.
  intros Hd1 Hh1 Hd2 Hh2 r. subst r.
  pose proof (build_report_run st l1 l2 left right Hd1 Hh1 Hd2 Hh2) as Hrun.
  destruct (report_table left right) as [e|report].
  - destruct Hrun as (st' & -> & Hw & _). done.
  - destruct Hrun as (l & st1 & -> & Hl & Hw & _).
    destruct (save_as_excel_written E l "player_salary_report.xlsx" ∅ st1)
      as [Hs | (p & df & Hp & Hdf & Hs)]; rewrite Hs, Hw; [by left|].
    right. rewrite Hl in Hdf. vm_compute in Hp. by simplify_eq.
Qed.

End ReportTable.

Lemma report_table_shape_witness :
  nrows alice_stats ≤ nrows scenario_report
  ∧ columns scenario_report = report_columns.
Proof.
  destruct (report_table_shape alice_stats
              salaries_alice
              scenario_report eq_refl)
    as (Hrows & _ & merged & df & Hm & Ha & _ & Hcols).
  split; [exact Hrows|].
  apply Hcols. vm_compute in Hm. simplify_eq. vm_compute in Ha. simplify_eq.
  apply (bool_decide_unpack _). vm_compute. exact I.
Defined.

Lemma build_report_writes_report_table_witness :
  written (build_report scenario_env scenario_loaded).2 = []
  ∨ written (build_report scenario_env scenario_loaded).2
    = [] ++ [(parse "player_salary_report.xlsx", scenario_report,
              {[ "index" := PBool false ]})].
Proof.
  exact (build_report_writes_report_table scenario_env scenario_loaded
           1%positive 2%positive alice_stats
           salaries_alice
           eq_refl eq_refl eq_refl eq_refl).
Defined.

(** * Further properties of the join and of the renaming *)

Section JoinMore.

(** Membership in the rows of a left join. *)
Lemma left_join_rows_elem li ri w cast lrows rrows r :
  r ∈ left_join_rows li ri w cast lrows rrows ↔
    ∃ lrow, lrow ∈ lrows
      ∧ ((∃ rrow, rrow ∈ rrows
                  ∧ key_eqb (cell lrow li) (cell rrow ri) = true
                  ∧ r = lrow ++ cast rrow)
         ∨ ((∀ rrow, rrow ∈ rrows →
                     key_eqb (cell lrow li) (cell rrow ri) = false)
            ∧ r = lrow ++ replicate w NaN)).
Proof.
  unfold left_join_rows, matching. rewrite list_elem_of_In, in_flat_map. split.
  - intros (lrow & Hlrow%list_elem_of_In & Hin). exists lrow. split; [done|].
    destruct (List.filter _ rrows) as [|m ms] eqn:Hf.
    + right. apply list_elem_of_In, list_elem_of_singleton in Hin as ->.
      split; [|done]. intros rrow Hrrow%list_elem_of_In.
      destruct (key_eqb (cell lrow li) (cell rrow ri)) eqn:Hk; [|done].
      assert (In rrow []) as []. rewrite <- Hf. by apply filter_In.
    + left. apply in_map_iff in Hin as (rrow & <- & Hrrow).
      rewrite <- Hf in Hrrow. apply filter_In in Hrrow as [Hrrow Hk].
      exists rrow. by rewrite list_elem_of_In.
  - intros (lrow & Hlrow & Hcase). exists lrow.
    split; [by apply list_elem_of_In|].
    destruct Hcase as [(rrow & Hrrow & Hk & ->) | (Hnone & ->)].
    + assert (In rrow (List.filter (λ rrow, key_eqb (cell lrow li) (cell rrow ri))
                         rrows)) as Hin
        by (apply filter_In; split; [by apply list_elem_of_In | done]).
      destruct (List.filter _ rrows) as [|m ms]; [done|].
      apply in_map_iff. by exists rrow.
    + destruct (List.filter _ rrows) as [|m ms] eqn:Hf; [by left|].
      assert (In m (List.filter (λ rrow, key_eqb (cell lrow li) (cell rrow ri))
                      rrows)) as Hin by (rewrite Hf; by left).
      apply filter_In in Hin as [Hm Hk]. apply list_elem_of_In in Hm.
      rewrite (Hnone m Hm) in Hk. done.
Qed.

(** A left row is unmatched when no right row has its key. *)
Lemma unmatched_spec li ri lrows rrows :
  unmatched li ri lrows rrows = true ↔
    ∃ lrow, lrow ∈ lrows
      ∧ ∀ rrow, rrow ∈ rrows → key_eqb (cell lrow li) (cell rrow ri) = false.
Proof.
  unfold unmatched, matching. rewrite existsb_exists. split.
  - intros (lrow & Hin%list_elem_of_In & Hnone%bool_decide_eq_true_1).
    exists lrow. split; [done|]. intros rrow Hrrow%list_elem_of_In.
    destruct (key_eqb (cell lrow li) (cell rrow ri)) eqn:Hk; [|done].
    assert (In rrow []) as []. rewrite <- Hnone. by apply filter_In.
  - intros (lrow & Hin & Hnone). exists lrow.
    split; [by apply list_elem_of_In|]. apply bool_decide_eq_true_2.
    destruct (List.filter _ rrows) as [|m ms] eqn:Hf; [done|].
    assert (In m (List.filter (λ rrow, key_eqb (cell lrow li) (cell rrow ri))
                    rrows)) as Hm by (rewrite Hf; by left).
    apply filter_In in Hm as [Hm Hk]. apply list_elem_of_In in Hm.
    rewrite (Hnone m Hm) in Hk. done.
Qed.

Lemma merge_dtypes left right left_on right_on df li lt ri rt :
  merge left right left_on right_on = inr df →
  positions left_on (columns left) = li :: lt →
  positions right_on (columns right) = ri :: rt →
  dtypes df = dtypes left
              ++ (if unmatched li ri (rows left) (rows right)
                  then map upcast (dtypes right) else dtypes right).
Proof.
  unfold merge. intros Hm Hl Hr. rewrite Hl, Hr in Hm. cbv zeta in Hm.
  destruct (negb _); [done|].
  destruct (suffix_collision _ _ || _); [done|]. by simplify_eq.
Qed.

(** X17: the rows of the left join are exactly these: for every row of
    the left table and every right row whose [Player] matches its [name], the
    two rows side by side; and for every left row that nothing matches, the
    row followed by one missing value per right column. A right row that
    matches no left row appears nowhere. The left columns keep their types.
    When every left row is matched the right columns keep their types and
    cells; when some left row is unmatched, the right columns of integers
    become columns of floats, in the matched rows too. *)
Theorem merge_rows_left_join (left right df : DataFrame) :
  merge left right "name" "Player" = inr df →
  ∃ li ri (fill : bool),
    head (positions "name" (columns left)) = Some li
    ∧ head (positions "Player" (columns right)) = Some ri
    ∧ (fill = true ↔
       ∃ lrow, lrow ∈ rows left
         ∧ ∀ rrow, rrow ∈ rows right →
                   key_eqb (cell lrow li) (cell rrow ri) = false)
    ∧ dtypes df
      = dtypes left ++ (if fill then map upcast (dtypes right) else dtypes right)
    ∧ ∀ r, r ∈ rows df ↔
        ∃ lrow, lrow ∈ rows left
          ∧ ((∃ rrow, rrow ∈ rows right
                      ∧ key_eqb (cell lrow li) (cell rrow ri) = true
                      ∧ r = lrow ++ (if fill then upcast_row (dtypes right) rrow
                                     else rrow))
             ∨ ((∀ rrow, rrow ∈ rows right →
                         key_eqb (cell lrow li) (cell rrow ri) = false)
                ∧ r = lrow ++ replicate (length (columns right)) NaN)).
Proof.
  intros Hm.
  destruct (merge_inr _ _ _ _ _ Hm) as (li & ri & lt & rt & Hl & Hr & _ & Hrows).
  exists li, ri, (unmatched li ri (rows left) (rows right)).
  rewrite Hl, Hr. split; [done|]. split; [done|].
  split; [apply unmatched_spec|].
  split; [by eapply merge_dtypes|].
  intros r. rewrite Hrows, left_join_rows_elem.
  by destruct (unmatched li ri (rows left) (rows right)).
Qed.

Lemma lower_ascii_normal c :
  let n := nat_of_ascii (Str.lower_ascii c) in
  negb ((65 <=? n)%nat && (n <=? 90)%nat) = true.
Proof.
  destruct c as [[] [] [] [] [] [] [] []]; reflexivity.
Qed.

Lemma lower_ascii_isascii c :
  (nat_of_ascii c <? 128)%nat = true →
  (nat_of_ascii (Str.lower_ascii c) <? 128)%nat = true.
Proof.
  destruct c as [[] [] [] [] [] [] [] []]; cbn; done.
Qed.

Lemma lower_ascii_fixed c :
  negb ((65 <=? nat_of_ascii c)%nat && (nat_of_ascii c <=? 90)%nat) = true →
  Str.lower_ascii c = c.
Proof.
  unfold Str.lower_ascii. cbv zeta.
  destruct ((65 <=? nat_of_ascii c)%nat && (nat_of_ascii c <=? 90)%nat); done.
Qed.

(** X18: on a label of the ASCII range, the renaming of line 43 yields a
    label of that range without capital letters [A] - [Z] and without
    spaces, leaves a label that has neither as it is, and is therefore
    idempotent; it keeps the length of the label. *)
Theorem normalize_label_normalized (c : string) :
  Str.isascii c = true →
  Str.isascii (normalize_label c) = true
  ∧ normalized (normalize_label c) = true
  ∧ (normalized c = true → normalize_label c = c)
  ∧ normalize_label (normalize_label c) = normalize_label c
  ∧ String.length (normalize_label c) = String.length c.
Proof.
  intros Hascii.
  assert (∀ s, normalized (normalize_label s) = true) as Hnorm.
  { unfold normalize_label. induction s as [|a s IH]; [done|].
    cbn [Str.lower Str.replace normalized]. rewrite IH, andb_true_r.
    unfold normalized_char.
    destruct (Ascii.eqb (Str.lower_ascii a) " ") eqn:Hsp.
    - reflexivity.
    - pose proof (lower_ascii_normal a) as Hl. cbv zeta in Hl.
      by rewrite Hl, Hsp. }
  assert (∀ s, normalized s = true → normalize_label s = s) as Hfix.
  { unfold normalize_label. induction s as [|a s IH]; [done|].
    cbn [Str.lower Str.replace normalized]. intros [Ha Hs]%andb_true_iff.
    rewrite (IH Hs). unfold normalized_char in Ha. cbv zeta in Ha.
    apply andb_true_iff in Ha as [Hup Hsp].
    rewrite (lower_ascii_fixed a Hup).
    apply negb_true_iff in Hsp. by rewrite Hsp. }
  split.
  { unfold normalize_label. induction c as [|a s IH]; [done|].
    cbn [Str.lower Str.replace Str.isascii] in *.
    apply andb_true_iff in Hascii as [Ha Hs]. rewrite (IH Hs), andb_true_r.
    destruct (Ascii.eqb (Str.lower_ascii a) " "); [reflexivity|].
    by apply lower_ascii_isascii. }
  split; [apply Hnorm|]. split; [apply Hfix|]. split; [apply Hfix, Hnorm|].
  unfold normalize_label. clear Hascii. induction c as [|a s IH]; [done|].
  cbn [Str.lower Str.replace String.length]. by rewrite IH.
Qed.

End JoinMore.

Lemma normalize_label_normalized_witness :
  normalize_label "Salary Per Minute" = "salary_per_minute"
  ∧ Str.isascii (normalize_label "Salary Per Minute") = true
  ∧ String.length (normalize_label "Salary Per Minute") = 17.
Proof.
  destruct (normalize_label_normalized "Salary Per Minute" eq_refl)
    as (Ha & _ & _ & _ & Hlen).
  split; [reflexivity|]. split; [exact Ha | exact Hlen].
Defined.

Lemma merge_rows_left_join_witness :
  dtypes two_players_merged
  = [Object; Object; Int64; Object; Object; Int64; Object; Float64]
  ∧ [VStr "Alice"; VStr "TeamA"; VInt 22; VStr "USA"; VStr "FW"; VInt 900;
     VStr "Alice"; VFloat 900000] ∈ rows two_players_merged.
Proof.
  destruct (merge_rows_left_join stats_two_players salaries_alice
              two_players_merged eq_refl)
    as (li & ri & fill & Hli & Hri & Hfill & Hdt & Hrows).
  injection Hli as <-. injection Hri as <-.
  assert (fill = true) as ->.
  { apply Hfill.
    exists [VStr "Carol"; VStr "TeamB"; VInt 30; VStr "FRA"; VStr "GK"; VInt 300].
    split; [cbn; right; left|].
    intros rrow Hrrow. apply list_elem_of_singleton in Hrrow as ->. reflexivity. }
  split; [exact Hdt|].
  apply Hrows.
  exists [VStr "Alice"; VStr "TeamA"; VInt 22; VStr "USA"; VStr "FW"; VInt 900].
  split; [cbn; left|].
  left. exists [VStr "Alice"; VInt 900000].
  split; [cbn; left|]. split; reflexivity.
Defined.

(** * A player without a salary record *)

Section Unmatched.

Lemma rename_x_not_Annual other c :
  rename_overlap other "_x" c = "Annual" → c = "Annual".
Proof.
  unfold rename_overlap. case_bool_decide; [|done]. intros Heq. exfalso.
  pose proof (f_equal String.length Heq) as Hlen.
  rewrite str_length_app in Hlen. cbn in Hlen.
  destruct c as [|a1 [|a2 [|a3 [|a4 [|a5 c]]]]]; cbn in Hlen; try lia.
  discriminate Heq.
Qed.






End Unmatched.


(** * The whole program, when nothing fails *)

Section ReportWritten.

Variable E : Env.

Lemma dict_getitem_elem {A} (d : list (string * A)) key v :
  dict_getitem d key = inr v → key ∈ d.*1.
Proof.
  unfold dict_getitem. destruct (List.find _ d) as [kv|] eqn:Hf; [|done].
  intros _. apply List.find_some in Hf as [Hin Heq].
  apply String.eqb_eq in Heq as <-.
  apply list_elem_of_fmap. exists kv. split; [done|].
  by apply list_elem_of_In.
Qed.

Lemma load_result_elem cfg n data :
  load_result E cfg n = inr data → n ∈ cfg.*1.
Proof.
  unfold load_result. destruct (dict_getitem cfg n) as [e|entry] eqn:Hd; [done|].
  intros _. by eapply dict_getitem_elem.
Qed.

(** X20: when the configuration is read, every configured dataset is read,
    the report can be computed from the tables read for [player_stats] and
    [player_salaries], and neither the directory nor the writer fails,
    [player_salary_on_play_time] returns; it has written exactly one file,
    [player_salary_report.xlsx] holding that report with [index] off, made
    the directory of that file, and logged three info records. *)
Theorem report_written config_file cfg left right report st0 :
  yaml_at E config_file = inr cfg →
  (∀ n, n ∈ cfg.*1 → ∃ d, load_result E cfg n = inr d) →
  load_result E cfg "player_stats" = inr left →
  load_result E cfg "player_salaries" = inr right →
  report_table left right = inr report →
  mkdir_fails E (parent (parse "player_salary_report.xlsx")) = None →
  to_excel_fails E (parse "player_salary_report.xlsx") report = None →
  ∃ st',
    player_salary_on_play_time E config_file st0 = (Return (), st')
    ∧ written st'
      = written st0 ++ [(parse "player_salary_report.xlsx", report,
                         {[ "index" := PBool false ]})]
    ∧ dirs_made st' = dirs_made st0 ++ [parent (parse "player_salary_report.xlsx")]
    ∧ log st'
      = log st0
        ++ [LogInfo "Generating player salary report based on play minutes...";
            LogInfo ("DataLoader initialized with config file: " +:+ config_file);
            LogInfo "Data saved to player_salary_report.xlsx"].
Proof.
  intros Hy Hok Hleft Hright Hrep Hmk Hex.
  rewrite player_salary_on_play_time_run, (load_phase_run E _ cfg) by done.
  set (st := loader_ready cfg config_file st0).
  destruct (for_each_load_ok E (config st).*1 st Hok)
    as (st1 & Hrun & _ & Hlog & Hdirs & Hwr & _ & _ & Hall).
  rewrite load_data_run, Hrun.
  destruct (Hall "player_stats" (load_result_elem _ _ _ Hleft))
    as (l1 & d1 & Hd1 & Hh1 & Hr1).
  destruct (Hall "player_salaries" (load_result_elem _ _ _ Hright))
    as (l2 & d2 & Hd2 & Hh2 & Hr2).
  cbn in Hr1, Hr2. rewrite Hleft in Hr1. rewrite Hright in Hr2. simplify_eq.
  pose proof (build_report_run E st1 l1 l2 d1 d2 Hd1 Hh1 Hd2 Hh2) as Hb.
  rewrite Hrep in Hb. destruct Hb as (l & st2 & -> & Hl & Hw2 & Hdi2 & Hlo2).
  rewrite (save_as_excel_success E l "player_salary_report.xlsx" ∅ st2
             (parse "player_salary_report.xlsx") report) by done.
  eexists. split; [reflexivity|]. cbn.
  rewrite Hw2, Hdi2, Hlo2, Hwr, Hdirs, Hlog. subst st. cbn.
  split; [done|]. split; [done|]. by rewrite <- app_assoc.
Qed.

End ReportWritten.

Lemma report_written_witness :
  ∃ st',
    player_salary_on_play_time scenario_env "utils/dataset.yaml"
      (configured []) = (Return (), st')
    ∧ written st'
      = [] ++ [(parse "player_salary_report.xlsx", scenario_report,
                {[ "index" := PBool false ]})]
    ∧ dirs_made st' = [] ++ [parent (parse "player_salary_report.xlsx")]
    ∧ log st'
      = []
        ++ [LogInfo "Generating player salary report based on play minutes...";
            LogInfo ("DataLoader initialized with config file: " +:+ "utils/dataset.yaml");
            LogInfo "Data saved to player_salary_report.xlsx"].
Proof.
  apply (report_written scenario_env "utils/dataset.yaml" scenario_config
           alice_stats salaries_alice
           scenario_report (configured []));
    try reflexivity.
  exact scenario_reads_ok.
Defined.

(** * Typed tables through the join *)

Section TypedJoin.

Lemma upcast_cell_typed t v :
  cell_typed t v = true → cell_typed (upcast t) (upcast_cell t v) = true.
Proof. by destruct t, v. Qed.

Lemma upcast_row_typed ts r :
  Forall2 (λ t v, cell_typed t v = true) ts r →
  Forall2 (λ t v, cell_typed t v = true) (map upcast ts) (upcast_row ts r).
Proof.
  induction 1 as [|t v ts r Htv _ IH]; [constructor|].
  cbn. constructor; [by apply upcast_cell_typed | done].
Qed.

(** The missing-value marker fits every column that was converted. *)
Lemma padding_typed ts :
  Forall2 (λ t v, cell_typed t v = true) (map upcast ts)
          (replicate (length ts) NaN).
Proof. induction ts as [|t ts IH]; cbn; constructor; [by destruct t | done]. Qed.

Lemma frame_typed_wf df :
  frame_typed df → length (dtypes df) = length (columns df) → frame_wf df.
Proof.
  intros Ht Hlen. unfold frame_wf. eapply Forall_impl; [exact Ht|].
  intros r Hr. cbv beta in Hr. apply Forall2_length in Hr. lia.
Qed.

(** The join of typed tables is typed: the converted columns hold
    floats, and the marker is only filled into converted columns. *)
Lemma merge_typed left right left_on right_on df :
  frame_typed left → frame_typed right →
  length (dtypes right) = length (columns right) →
  merge left right left_on right_on = inr df →
  frame_typed df.
Proof.
  intros Hl Hr Hlen Hm.
  destruct (merge_inr _ _ _ _ _ Hm) as (li & ri & lt & rt & Hpl & Hpr & _ & Hrows).
  pose proof (merge_dtypes _ _ _ _ _ _ _ _ _ Hm Hpl Hpr) as Hdt.
  unfold frame_typed. rewrite Hdt, Hrows. apply Forall_forall. intros r Hin.
  apply left_join_rows_elem in Hin
    as (lrow & Hlrow & [(rrow & Hrrow & _ & ->) | (Hnone & ->)]).
  - apply Forall2_app; [exact (proj1 (Forall_forall _ _) Hl lrow Hlrow)|].
    pose proof (proj1 (Forall_forall _ _) Hr rrow Hrrow) as Hrt. cbv beta in Hrt.
    destruct (unmatched li ri (rows left) (rows right));
      [by apply upcast_row_typed | done].
  - apply Forall2_app; [exact (proj1 (Forall_forall _ _) Hl lrow Hlrow)|].
    assert (unmatched li ri (rows left) (rows right) = true) as ->
      by (apply unmatched_spec; eauto).
    rewrite <- Hlen. apply padding_typed.
Qed.

Lemma positions_from_map (f : string → string) c i cols :
  (∀ h, h ∈ cols → f h = c ↔ h = c) →
  positions_from i c (map f cols) = positions_from i c cols.
Proof.
  revert i. induction cols as [|h cols IH]; intros i Hf; [done|].
  cbn [map positions_from].
  rewrite IH by (intros h' Hh'; apply Hf; by right).
  pose proof (Hf h ltac:(by left)) as Hh.
  destruct (decide (h = c)) as [Heq|Hne].
  - rewrite !bool_decide_eq_true_2; [done | done | by apply Hh].
  - rewrite !bool_decide_eq_false_2; [done | done | by rewrite Hh].
Qed.

Lemma positions_from_map_absent (f : string → string) c i cols :
  (∀ h, h ∈ cols → f h ≠ c) → positions_from i c (map f cols) = [].
Proof.
  intros Hf. apply positions_from_absent.
  intros (h & Hh & Hin)%list_elem_of_fmap. by eapply Hf.
Qed.

Lemma positions_from_add c i k cols :
  positions_from (i + k) c cols = map (λ j, i + j) (positions_from k c cols).
Proof.
  revert k. induction cols as [|h cols IH]; intros k; [done|].
  cbn [positions_from]. rewrite <- Nat.add_succ_r, IH.
  by case_bool_decide.
Qed.

Lemma positions_from_shift c i cols :
  positions_from i c cols = map (λ j, i + j) (positions_from 0 c cols).
Proof. by rewrite <- positions_from_add, Nat.add_0_r. Qed.

Lemma rename_x_not_minutes other c :
  rename_overlap other "_x" c = "minutes" → c = "minutes".
Proof.
  unfold rename_overlap. case_bool_decide; [|done]. intros Heq. exfalso.
  pose proof (f_equal String.length Heq) as Hlen.
  rewrite str_length_app in Hlen. cbn in Hlen.
  destruct c as [|a1 [|a2 [|a3 [|a4 [|a5 [|a6 c]]]]]]; cbn in Hlen; try lia.
  discriminate Heq.
Qed.

Lemma rename_y_not_minutes other c :
  rename_overlap other "_y" c = "minutes" → c = "minutes".
Proof.
  unfold rename_overlap. case_bool_decide; [|done]. intros Heq. exfalso.
  pose proof (f_equal String.length Heq) as Hlen.
  rewrite str_length_app in Hlen. cbn in Hlen.
  destruct c as [|a1 [|a2 [|a3 [|a4 [|a5 [|a6 c]]]]]]; cbn in Hlen; try lia.
  discriminate Heq.
Qed.

Lemma rename_y_not_Annual other c :
  rename_overlap other "_y" c = "Annual" → c = "Annual".
Proof.
  unfold rename_overlap. case_bool_decide; [|done]. intros Heq. exfalso.
  pose proof (f_equal String.length Heq) as Hlen.
  rewrite str_length_app in Hlen. cbn in Hlen.
  destruct c as [|a1 [|a2 [|a3 [|a4 [|a5 c]]]]]; cbn in Hlen; try lia.
  discriminate Heq.
Qed.

Lemma rename_overlap_absent other sfx c :
  c ∉ other → rename_overlap other sfx c = c.
Proof. intros Hc. unfold rename_overlap. by rewrite bool_decide_eq_false_2. Qed.

Lemma numeric_upcast t : numeric (upcast t) = numeric t.
Proof. by destruct t. Qed.

(** Where the two operands of line 40 are in the joined table. *)
Lemma merge_operands left right merged ia im :
  length (dtypes left) = length (columns left) →
  positions "Annual" (columns right) = [ia] → "Annual" ∉ columns left →
  positions "minutes" (columns left) = [im] → "minutes" ∉ columns right →
  merge left right "name" "Player" = inr merged →
  positions "Annual" (columns merged) = [length (columns left) + ia]
  ∧ positions "minutes" (columns merged) = [im]
  ∧ numeric (dtype_at merged (length (columns left) + ia))
    = numeric (dtype_at right ia)
  ∧ dtype_at merged im = dtype_at left im.
Proof.
  intros Hlen Ha HaL Hm HmR Hmerge.
  destruct (merge_inr _ _ _ _ _ Hmerge)
    as (li & ri & lt & rt & Hpl & Hpr & Hcols & _).
  pose proof (merge_dtypes _ _ _ _ _ _ _ _ _ Hmerge Hpl Hpr) as Hdt.
  assert (im < length (columns left)) as Him.
  { eapply lookup_lt_Some, positions_head, Hm. }
  split; [|split; [|split]].
  - unfold positions. rewrite Hcols, positions_from_app, length_map.
    rewrite positions_from_map_absent.
    2:{ intros h Hh Heq%rename_x_not_Annual. by subst h. }
    rewrite positions_from_map.
    2:{ intros h _. split; [apply rename_y_not_Annual|].
        intros ->. by apply rename_overlap_absent. }
    rewrite positions_from_shift. fold (positions "Annual" (columns right)).
    by rewrite Ha.
  - unfold positions. rewrite Hcols, positions_from_app, length_map.
    rewrite positions_from_map.
    2:{ intros h _. split; [apply rename_x_not_minutes|].
        intros ->. by apply rename_overlap_absent. }
    rewrite (positions_from_map_absent _ "minutes").
    2:{ intros h Hh Heq%rename_y_not_minutes. by subst h. }
    fold (positions "minutes" (columns left)). by rewrite Hm.
  - unfold dtype_at. rewrite Hdt, lookup_app_r by lia.
    rewrite Hlen, Nat.add_comm, Nat.add_sub.
    destruct (unmatched li ri (rows left) (rows right)); [|done].
    rewrite list_lookup_fmap. destruct (dtypes right !! ia) as [t|]; [|done].
    cbn. apply numeric_upcast.
  - unfold dtype_at. rewrite Hdt, lookup_app_l by lia. done.
Qed.

(** X21: when [player_stats] and [player_salaries] are typed tables in
    which [minutes] and [Annual] are single columns of numeric type, and
    neither label occurs in the other table, their join is a typed table in
    which the two are still single columns of numeric type: line 40 divides
    them as floats and does not raise, whatever the minutes played. *)
Theorem typed_tables_divide (left right merged : DataFrame) (ia im : nat) :
  frame_typed left → length (dtypes left) = length (columns left) →
  frame_typed right → length (dtypes right) = length (columns right) →
  positions "Annual" (columns right) = [ia] → "Annual" ∉ columns left →
  positions "minutes" (columns left) = [im] → "minutes" ∉ columns right →
  numeric (dtype_at right ia) = true →
  numeric (dtype_at left im) = true →
  merge left right "name" "Player" = inr merged →
  frame_wf merged ∧ frame_typed merged
  ∧ positions "Annual" (columns merged) = [length (columns left) + ia]
  ∧ positions "minutes" (columns merged) = [im]
  ∧ numeric (dtype_at merged (length (columns left) + ia)) = true
  ∧ numeric (dtype_at merged im) = true
  ∧ ∃ df, add_salary_per_minute merged = inr df ∧ nrows df = nrows merged.
Proof.
  intros Htl Hll Htr Hlr Ha HaL Hm HmR Hna Hnm Hmerge.
  destruct (merge_operands _ _ _ _ _ Hll Ha HaL Hm HmR Hmerge)
    as (Hpa & Hpm & Hda & Hdm).
  rewrite Hna in Hda. rewrite <- Hdm in Hnm.
  split; [eapply merge_wf; [| |exact Hmerge]; by apply frame_typed_wf|].
  split; [exact (merge_typed _ _ _ _ _ Htl Htr Hlr Hmerge)|].
  do 4 (split; [done|]).
  eexists. split; [by apply add_salary_per_minute_numeric|].
  apply setitem_nrows. cbn [values]. unfold nrows.
  rewrite length_zip_with, !length_map. lia.
Qed.

End TypedJoin.

Lemma typed_tables_divide_witness :
  frame_typed two_players_merged
  ∧ positions "Annual" (columns two_players_merged) = [6 + 1]
  ∧ numeric (dtype_at two_players_merged (6 + 1)) = true
  ∧ ∃ df, add_salary_per_minute two_players_merged = inr df
          ∧ nrows df = nrows two_players_merged.
Proof.
  destruct (typed_tables_divide stats_two_players salaries_alice
              two_players_merged 1 5)
    as (_ & Ht & Hpa & _ & Hna & _ & Hex);
    [repeat constructor | reflexivity | repeat constructor | reflexivity
    | reflexivity | apply (bool_decide_unpack _); vm_compute; exact I
    | reflexivity | apply (bool_decide_unpack _); vm_compute; exact I
    | reflexivity | reflexivity | reflexivity |].
  split; [exact Ht|]. split; [exact Hpa|]. split; [exact Hna | exact Hex].
Defined.

(** * Typed files give typed tables *)

Section TypedRead.

Variable E : Env.

Lemma select_cells_nil_l {A} (r : list A) : select_cells [] r = [].
Proof. done. Qed.

Lemma select_cells_cons {A} (k : bool) (keep : list bool) (x : A) (r : list A) :
  select_cells (k :: keep) (x :: r)
  = if k then x :: select_cells keep r else select_cells keep r.
Proof.
  unfold select_cells. cbn [zip zip_with].
  destruct k.
  - rewrite filter_cons_True by done. done.
  - rewrite filter_cons_False; [done|]. cbn. by intros [].
Qed.

(** Selecting the same columns of the types and of a record keeps the
    record typed. *)
Lemma select_cells_typed (keep : list bool) (types : list dtype) (r : list value) :
  Forall2 (λ t v, cell_typed t v = true) types r →
  Forall2 (λ t v, cell_typed t v = true)
          (select_cells keep types) (select_cells keep r).
Proof.
  intros H. revert keep. induction H as [|t v types r Htv _ IH]; intros keep.
  - destruct keep; constructor.
  - destruct keep as [|k keep]; [constructor|].
    rewrite !select_cells_cons. destruct k; [constructor; [done|]|]; apply IH.
Qed.

Lemma select_cells_same_length {A B} (keep : list bool) (a : list A) (b : list B) :
  length a = length b →
  length (select_cells keep a) = length (select_cells keep b).
Proof.
  revert keep b. induction a as [|x a IH]; intros keep [|y b] Hlen; try done.
  - by destruct keep.
  - destruct keep as [|k keep]; [done|].
    rewrite !select_cells_cons. simplify_eq/=.
    destruct k; cbn [length]; by rewrite (IH keep b).
Qed.

Lemma select_cells_header (cols header : list string) :
  select_cells (map (λ h, bool_decide (h ∈ cols)) header) header
  = filter (.∈ cols) header.
Proof.
  induction header as [|h header IH]; [done|].
  cbn [map]. rewrite select_cells_cons, IH.
  case_bool_decide.
  - by rewrite filter_cons_True.
  - by rewrite filter_cons_False.
Qed.

(** X22: when every file the reader can find is typed (one type per
    header name, every field one its column's type can hold), every table
    [load_data] reads for a configuration entry is typed, with one type per
    column. *)
Theorem load_result_typed cfg dataset data :
  (∀ p header types recs,
     csv_at E p = Csv header types recs →
     length types = length header
     ∧ Forall (λ r, Forall2 (λ t v, cell_typed t v = true) types r) recs) →
  load_result E cfg dataset = inr data →
  frame_typed data ∧ length (dtypes data) = length (columns data).
Proof.
  intros Hfiles. unfold load_result.
  destruct (dict_getitem cfg dataset) as [|entry]; [done|].
  destruct (entry_getitem (cfg_path entry) "path") as [|path]; [done|].
  destruct (entry_getitem (cfg_columns entry) "columns") as [|usecols]; [done|].
  destruct (csv_at E (get_dataset_path E path)) as [| | |e|header types recs] eqn:Hf;
    try done.
  destruct (Hfiles _ _ _ _ Hf) as [Hlen Hrecs].
  cbn [read_csv]. destruct (forallb _ usecols); [|done]. intros [= <-].
  unfold frame_typed. cbn [dtypes columns rows]. split.
  - apply Forall_fmap. eapply Forall_impl; [exact Hrecs|].
    intros r Hr. by apply select_cells_typed.
  - rewrite <- select_cells_header. by apply select_cells_same_length.
Qed.

End TypedRead.

Lemma load_result_typed_witness :
  frame_typed alice_stats ∧ length (dtypes alice_stats) = length (columns alice_stats).
Proof.
  apply (load_result_typed scenario_env scenario_config "player_stats" alice_stats);
    [|reflexivity].
  intros p header types recs. cbn [csv_at scenario_env].
  repeat case_bool_decide; intros Hf; [| |done].
  - injection Hf as <- <- <-. split; [reflexivity | repeat constructor].
  - injection Hf as <- <- <-. split; [reflexivity | repeat constructor].
Defined.
